(** * TankShooter: simulation and collision core

    A shallow embedding of the game modules [game/stats.ts], [game/tank.ts],
    [game/entities.ts], [game/bulletSystem.ts] and of the two handlers of
    the React component that mutate progression and health state.

    JavaScript numbers are idealised as real numbers ([R]): [Math.max],
    [Math.min], [Math.floor], [Math.hypot], [Math.sqrt], [Math.cos] and
    [Math.sin] become their mathematical counterparts, and rounding, NaN
    and infinities are outside the model.  Values that the program only
    ever uses as integers (identifiers, levels, stat points, counters,
    grid cells and hash keys) are integers ([Z] or [nat]). *)

From Stdlib Require Import Reals Lra Lia ZArith Psatz Zfloor.
From stdpp Require Import base decidable option list gmap strings.

#[local] Open Scope R_scope.

(** ** JavaScript number helpers *)

#[global] Instance Req_decision : EqDecision R := Req_dec_T.
#[global] Instance Rlt_decision (x y : R) : Decision (x < y) := Rlt_dec x y.
#[global] Instance Rle_decision (x y : R) : Decision (x <= y) := Rle_dec x y.
#[global] Instance Rgt_decision (x y : R) : Decision (x > y) := Rgt_dec x y.
#[global] Instance Rge_decision (x y : R) : Decision (x >= y) := Rge_dec x y.

Module Js.

(** [a || b] on numbers: [b] when [a] is falsy, that is [0]. *)
Definition or_else (a b : R) : R := if decide (a = 0) then b else a.

(** [Math.hypot(x, y)]. *)
Definition hypot (x y : R) : R := sqrt (x * x + y * y).

(** [Math.max(a, b, c)]. *)
Definition max3 (a b c : R) : R := Rmax (Rmax a b) c.

(** [ToInt32]: wrap an integer into the signed 32-bit range. *)
Definition to_int32 (z : Z) : Z := ((z + 2 ^ 31) `mod` 2 ^ 32 - 2 ^ 31)%Z.

(** [a << n] on 32-bit integers. *)
Definition shl32 (a n : Z) : Z := to_int32 (Z.shiftl (to_int32 a) n).

(** [a & b], [a ^ b] and [a | b] on 32-bit integers. *)
Definition and32 (a b : Z) : Z := to_int32 (Z.land (to_int32 a) (to_int32 b)).
Definition xor32 (a b : Z) : Z := to_int32 (Z.lxor (to_int32 a) (to_int32 b)).
Definition or32 (a b : Z) : Z := to_int32 (Z.lor (to_int32 a) (to_int32 b)).

End Js.

Record Vec2 := mkVec2 { vx : R; vy : R }.

Inductive EntityKind := square | triangle.

#[global] Instance EntityKind_eq_dec : EqDecision EntityKind.
Proof. solve_decision. Defined.

(** ** game/stats.ts *)

Module Stats.

Inductive StatKey :=
| maxHealth | healthRegen | bodyDamage | bulletSpeed
| bulletPenetration | bulletDamage | reload | movementSpeed.

#[global] Instance StatKey_eq_dec : EqDecision StatKey.
Proof. solve_decision. Defined.

(** The eight allocation slots, in the declaration order of the
    interface (the order of [Object.values]). *)
Record StatPoints := mkStatPoints {
  sp_maxHealth : Z;
  sp_healthRegen : Z;
  sp_bodyDamage : Z;
  sp_bulletSpeed : Z;
  sp_bulletPenetration : Z;
  sp_bulletDamage : Z;
  sp_reload : Z;
  sp_movementSpeed : Z
}.

Definition STAT_ORDER : list StatKey :=
  [healthRegen; maxHealth; bodyDamage; bulletSpeed;
   bulletPenetration; bulletDamage; reload; movementSpeed].

Definition MAX_STAT_POINTS : Z := 7.
Definition MAX_SKILL_POINTS : Z := 33.
Definition MAX_LEVEL : Z := 45.

Definition BASE_HP : R := 50.
Definition HP_PER_LEVEL : R := 2.
Definition HP_PER_POINT : R := 20.

Definition SIZE_PER_LEVEL : R := 0.01.
Definition FOV_SCALE : R := 0.003.

Definition REGEN_BASE_FACTOR : R := 0.03.
Definition REGEN_PER_POINT : R := 0.12.
Definition REGEN_HYPER_DELAY : R := 30.
Definition REGEN_HYPER_MULTIPLIER : R := 4.

Definition BODY_DAMAGE_BASE : R := 5.
Definition BODY_DAMAGE_MULT_SHAPE : R := 4.
Definition BODY_DAMAGE_MULT_TANK : R := 6.
Definition BODY_DAMAGE_MULT_PROJECTILE : R := 1.

Definition BASE_BULLET_SPEED : R := 300.
Definition BULLET_SPEED_PER_POINT : R := 0.1.

Definition BASE_BULLET_HP : R := 2.
Definition BULLET_PENETRATION_PER_POINT : R := 0.75.

Definition BASE_BULLET_DAMAGE : R := 7.
Definition BULLET_DAMAGE_PER_POINT : R := 0.42857.

Definition BASE_RELOAD_TICKS : R := 15.
Definition RELOAD_POINT_FACTOR : R := 0.914.
Definition TICK_DURATION : R := 0.04.

Definition BASE_TANK_SPEED : R := 280.
Definition SPEED_PER_POINT : R := 0.06.
Definition LEVEL_SPEED_SLOWDOWN : R := 0.004.
Definition MIN_LEVEL_SPEED_MULTIPLIER : R := 0.6.

Definition HIGH_SPEED_DAMAGE_PENALTY : R := 0.08.
Definition IMPACT_SPEED_BONUS : R := 0.25.

Definition SHAPE_BASE_DAMAGE (k : EntityKind) : R :=
  match k with square => 2 | triangle => 4 end.

Definition BASE_XP_TO_LEVEL : R := 60.
Definition XP_PER_LEVEL : R := 20.

(** [points[key]]. *)
Definition get (points : StatPoints) (key : StatKey) : Z :=
  match key with
  | maxHealth => sp_maxHealth points
  | healthRegen => sp_healthRegen points
  | bodyDamage => sp_bodyDamage points
  | bulletSpeed => sp_bulletSpeed points
  | bulletPenetration => sp_bulletPenetration points
  | bulletDamage => sp_bulletDamage points
  | reload => sp_reload points
  | movementSpeed => sp_movementSpeed points
  end.

(** [{ ...points, [key]: v }]. *)
Definition set (points : StatPoints) (key : StatKey) (v : Z) : StatPoints :=
  let '(mkStatPoints a b c d e f g h) := points in
  match key with
  | maxHealth => mkStatPoints v b c d e f g h
  | healthRegen => mkStatPoints a v c d e f g h
  | bodyDamage => mkStatPoints a b v d e f g h
  | bulletSpeed => mkStatPoints a b c v e f g h
  | bulletPenetration => mkStatPoints a b c d v f g h
  | bulletDamage => mkStatPoints a b c d e v g h
  | reload => mkStatPoints a b c d e f v h
  | movementSpeed => mkStatPoints a b c d e f g v
  end.

(** [Object.values(points)]. *)
Definition values (points : StatPoints) : list Z :=
  [sp_maxHealth points; sp_healthRegen points; sp_bodyDamage points;
   sp_bulletSpeed points; sp_bulletPenetration points;
   sp_bulletDamage points; sp_reload points; sp_movementSpeed points].

Definition clampStatPoints (points : StatPoints) : StatPoints :=
  let c v := Z.max 0 (Z.min MAX_STAT_POINTS v) in
  mkStatPoints
    (c (sp_maxHealth points)) (c (sp_healthRegen points))
    (c (sp_bodyDamage points)) (c (sp_bulletSpeed points))
    (c (sp_bulletPenetration points)) (c (sp_bulletDamage points))
    (c (sp_reload points)) (c (sp_movementSpeed points)).

Definition sumStatPoints (points : StatPoints) : Z :=
  foldl (fun total value => (total + value)%Z) 0%Z (values points).

Definition totalSkillPointsForLevel (level : R) : Z :=
  let clampedLevel := Z.max 1 (Z.min MAX_LEVEL (Zfloor level)) in
  let perLevel := Z.max 0 (Z.min 27 (clampedLevel - 1)) in
  let level30 := if decide (clampedLevel >= 30)%Z then 1%Z else 0%Z in
  let threeLevelSteps := Z.max 0 ((clampedLevel - 33) `div` 3 + 1) in
  let extra := Z.min 5 threeLevelSteps in
  Z.min MAX_SKILL_POINTS (perLevel + level30 + extra).

Definition availableSkillPoints (level : R) (points : StatPoints) : Z :=
  Z.max 0 (totalSkillPointsForLevel level - sumStatPoints points).

Definition baseMaxHpForLevel (level : R) : R :=
  BASE_HP + HP_PER_LEVEL * Rmax 0 (level - 1).

Definition xpForNextLevel (level : R) : R :=
  BASE_XP_TO_LEVEL + XP_PER_LEVEL * Rmax 0 (level - 1).

Record DerivedStats := mkDerivedStats {
  sizeMultiplier : R;
  fovMultiplier : R;
  maxHp : R;
  regenPerSecond : R;
  bodyDamageShape : R;
  bodyDamageTank : R;
  bodyDamageProjectile : R;
  d_bulletSpeed : R;
  bulletSpeedMultiplier : R;
  d_bulletDamage : R;
  bulletHpMax : R;
  reloadTicks : Z;
  reloadSeconds : R;
  moveSpeed : R
}.

Definition computeDerivedStats (level : R) (points : StatPoints) : DerivedStats :=
  let sizeMultiplier := 1 + SIZE_PER_LEVEL * Rmax 0 (level - 1) in
  let fovMultiplier := 1 + FOV_SCALE * Rmax 0 (level - 1) in
  let maxHp := baseMaxHpForLevel level + IZR (sp_maxHealth points) * HP_PER_POINT in
  let regenPerSecond :=
    (maxHp / 30) * (REGEN_BASE_FACTOR + REGEN_PER_POINT * IZR (sp_healthRegen points)) in
  let bodyBase := IZR (sp_bodyDamage points) + BODY_DAMAGE_BASE in
  let bulletSpeedMultiplier := 1 + BULLET_SPEED_PER_POINT * IZR (sp_bulletSpeed points) in
  let bulletSpeed := BASE_BULLET_SPEED * bulletSpeedMultiplier in
  let bulletDamageBase :=
    BASE_BULLET_DAMAGE * (1 + BULLET_DAMAGE_PER_POINT * IZR (sp_bulletDamage points)) in
  let speedPenalty :=
    1 / (1 + Rmax 0 (bulletSpeedMultiplier - 1) * HIGH_SPEED_DAMAGE_PENALTY) in
  let bulletDamage := bulletDamageBase * speedPenalty in
  let bulletHpMax :=
    BASE_BULLET_HP * (1 + BULLET_PENETRATION_PER_POINT * IZR (sp_bulletPenetration points)) in
  let reloadTicks :=
    Zceil (BASE_RELOAD_TICKS * powerRZ RELOAD_POINT_FACTOR (sp_reload points)) in
  let reloadSeconds := IZR reloadTicks * TICK_DURATION in
  let levelSlowdown :=
    Rmax MIN_LEVEL_SPEED_MULTIPLIER (1 - LEVEL_SPEED_SLOWDOWN * Rmax 0 (level - 1)) in
  let moveSpeed :=
    BASE_TANK_SPEED * levelSlowdown * (1 + SPEED_PER_POINT * IZR (sp_movementSpeed points)) in
  {| sizeMultiplier := sizeMultiplier;
     fovMultiplier := fovMultiplier;
     maxHp := maxHp;
     regenPerSecond := regenPerSecond;
     bodyDamageShape := bodyBase * BODY_DAMAGE_MULT_SHAPE;
     bodyDamageTank := bodyBase * BODY_DAMAGE_MULT_TANK;
     bodyDamageProjectile := bodyBase * BODY_DAMAGE_MULT_PROJECTILE;
     d_bulletSpeed := bulletSpeed;
     bulletSpeedMultiplier := bulletSpeedMultiplier;
     d_bulletDamage := bulletDamage;
     bulletHpMax := bulletHpMax;
     reloadTicks := reloadTicks;
     reloadSeconds := reloadSeconds;
     moveSpeed := moveSpeed |}.

Definition computeBulletHitDamage (bulletDamage bulletHp targetBaseDamage : R) : R :=
  if decide (bulletHp < targetBaseDamage)
  then bulletDamage * (bulletHp / Rmax (1 / 1000000) targetBaseDamage)
  else bulletDamage.

Definition impactMultiplierFromSpeed (speed : R) : R :=
  let ratio := Rmax 0 (Rmin 1 (speed / BASE_TANK_SPEED)) in
  1 + ratio * IMPACT_SPEED_BONUS.

Definition XP_PER_HP : R := 1.
Definition SCORE_PER_HP : R := 5.
Definition SCORE_MULTIPLIER (k : EntityKind) : R :=
  match k with square => 1 | triangle => 1.5 end.

(** [Math.round]: the nearest integer, halves going up. *)
Definition round (x : R) : Z := Zfloor (x + 0.5).

Definition xpForKill (kind : EntityKind) (maxHp : R) : Z :=
  let base := Rmax 1 maxHp in
  let multiplier := SCORE_MULTIPLIER kind in
  round (base * multiplier * XP_PER_HP).

Definition scoreForKill (kind : EntityKind) (maxHp : R) : Z :=
  let base := Rmax 1 maxHp in
  let multiplier := SCORE_MULTIPLIER kind in
  round (base * multiplier * SCORE_PER_HP).

End Stats.

(** ** game/tank.ts *)

Module Tank.

Definition TANK_RADIUS : R := 24.
Definition TANK_MAX_HP : R := 50.
Definition BULLET_RADIUS : R := 11.
Definition BULLET_LIFETIME : R := 2.2.


Definition applyTankDamage (currentHp damage maxHp : R) : R :=
  Rmax 0 (Rmin maxHp (currentHp - Rmax 0 damage)).

Definition applyTankHeal (currentHp heal maxHp : R) : R :=
  Rmax 0 (Rmin maxHp (currentHp + Rmax 0 heal)).



End Tank.

(** ** game/entities.ts *)

Module Entities.

Record GameEntity := mkGameEntity {
  e_id : Z;
  e_pos : Vec2;
  e_vel : Vec2;
  e_kick : Vec2;
  e_angle : R;
  e_angVel : R;
  e_size : R;
  e_kind : EntityKind;
  e_fill : string;
  e_stroke : string;
  e_hp : R;
  e_maxHp : R;
  e_hitT : option R
}.

Definition set_kick (e : GameEntity) (k : Vec2) : GameEntity :=
  mkGameEntity (e_id e) (e_pos e) (e_vel e) k (e_angle e) (e_angVel e)
    (e_size e) (e_kind e) (e_fill e) (e_stroke e) (e_hp e) (e_maxHp e) (e_hitT e).
Definition set_hp (e : GameEntity) (h : R) : GameEntity :=
  mkGameEntity (e_id e) (e_pos e) (e_vel e) (e_kick e) (e_angle e) (e_angVel e)
    (e_size e) (e_kind e) (e_fill e) (e_stroke e) h (e_maxHp e) (e_hitT e).
Definition set_hitT (e : GameEntity) (t : R) : GameEntity :=
  mkGameEntity (e_id e) (e_pos e) (e_vel e) (e_kick e) (e_angle e) (e_angVel e)
    (e_size e) (e_kind e) (e_fill e) (e_stroke e) (e_hp e) (e_maxHp e) (Some t).

Definition SQUARE_FILL : string := "#ffe869".
Definition SQUARE_STROKE : string := "#bfae4e".
Definition SQUARE_SIZE : R := 38.
Definition SQUARE_MAX_COUNT : nat := 18.
Definition SQUARE_MAX_HP : R := 10.

Definition TRIANGLE_FILL : string := "#fc7677".
Definition TRIANGLE_STROKE : string := "#bd5859".
Definition TRIANGLE_SIZE : R := 43.
Definition TRIANGLE_MAX_COUNT : nat := 5.
Definition TRIANGLE_MAX_HP : R := 30.

Definition ENTITY_SPEED_MIN : R := 5.
Definition ENTITY_SPEED_MAX : R := 8.
Definition ENTITY_ANG_MIN : R := -0.6.
Definition ENTITY_ANG_MAX : R := 0.6.
Definition ENTITY_COLLISION_INSET : R := 3.
Definition ENTITY_BOUNCE : R := 30.
Definition HIT_FLASH_DURATION : R := 0.06.
Definition PLAYER_CONTACT_DPS : R := 12.

Definition computeEntityCollisionRadius (size : R) : R :=
  Rmax 0 ((size * sqrt 2) / 2 - ENTITY_COLLISION_INSET).

(** The closure [rot] shared by the two vertex generators. *)
Definition rot (pos : Vec2) (ca sa : R) (p : Vec2) : Vec2 :=
  mkVec2 (vx p * ca - vy p * sa + vx pos) (vx p * sa + vy p * ca + vy pos).

Definition triangleWorldVerts (pos : Vec2) (angle size : R) : Vec2 * Vec2 * Vec2 :=
  let s := Rmax 1 size in
  let halfSide := s / 2 in
  let height := (s * sqrt 3) / 2 in
  let top := mkVec2 0 (- (2 / 3) * height) in
  let br := mkVec2 halfSide ((1 / 3) * height) in
  let bl := mkVec2 (- halfSide) ((1 / 3) * height) in
  let ca := cos angle in
  let sa := sin angle in
  (rot pos ca sa top, rot pos ca sa br, rot pos ca sa bl).


Definition pointInTriangle (p a b c : Vec2) : bool :=
  let v0x := vx c - vx a in let v0y := vy c - vy a in
  let v1x := vx b - vx a in let v1y := vy b - vy a in
  let v2x := vx p - vx a in let v2y := vy p - vy a in
  let dot00 := v0x * v0x + v0y * v0y in
  let dot01 := v0x * v1x + v0y * v1y in
  let dot02 := v0x * v2x + v0y * v2y in
  let dot11 := v1x * v1x + v1y * v1y in
  let dot12 := v1x * v2x + v1y * v2y in
  let invDen := 1 / Rmax (1 / 100000000) (dot00 * dot11 - dot01 * dot01) in
  let u := (dot11 * dot02 - dot01 * dot12) * invDen in
  let v := (dot00 * dot12 - dot01 * dot02) * invDen in
  bool_decide (u >= 0) && bool_decide (v >= 0) && bool_decide (u + v <= 1).

Definition closestPointOnSegment (p a b : Vec2) : Vec2 :=
  let abx := vx b - vx a in let aby := vy b - vy a in
  let apx := vx p - vx a in let apy := vy p - vy a in
  let ab2 := abx * abx + aby * aby in
  let t := if decide (ab2 > 0)
           then Rmax 0 (Rmin 1 ((apx * abx + apy * aby) / ab2))
           else 0 in
  mkVec2 (vx a + abx * t) (vy a + aby * t).

(** [(q.x - p.x) ** 2 + (q.y - p.y) ** 2]. *)
Definition dist2 (q p : Vec2) : R :=
  (vx q - vx p) * (vx q - vx p) + (vy q - vy p) * (vy q - vy p).

Definition closestPointOnTriangle (p a b c : Vec2) : Vec2 :=
  if pointInTriangle p a b c then mkVec2 (vx p) (vy p)
  else
    let p1 := closestPointOnSegment p a b in
    let p2 := closestPointOnSegment p b c in
    let p3 := closestPointOnSegment p c a in
    let d1 := dist2 p1 p in
    let d2 := dist2 p2 p in
    let d3 := dist2 p3 p in
    if decide (d1 <= d2 /\ d1 <= d3) then p1
    else if decide (d2 <= d1 /\ d2 <= d3) then p2
    else p3.

Definition circleIntersectsTriangle (center : Vec2) (radius : R) (a b c : Vec2) : bool :=
  let q := closestPointOnTriangle center a b c in
  let dx := vx center - vx q in
  let dy := vy center - vy q in
  bool_decide (dx * dx + dy * dy <= radius * radius).

(** *** Spawning

    [Math.random()] is modelled by an oracle: the infinite sequence
    [rnd] of the values it returns, read at a cursor that each call
    advances by one. *)

Definition countKind (kind : EntityKind) (entities : list GameEntity) : nat :=
  length (filter (fun e => e_kind e = kind) entities).

Section Spawn.
Variable rnd : nat -> R.

(** The state threaded through a spawn call: the entity array, the
    [nextEntityIdRef.current] counter and the oracle cursor. *)
Record SpawnState := mkSpawnState {
  s_entities : list GameEntity;
  s_nextId : Z;
  s_cursor : nat
}.

(** The tail of the loop body, from the population counts on; [c] is
    the cursor after the two draws of the placement. *)
Definition placeEntity (st : SpawnState) (c : nat) (x y : R) (kind : EntityKind)
    : bool * SpawnState :=
  let entities := s_entities st in
  let countSquare := countKind square entities in
  let countTri := countKind triangle entities in
  if decide (kind = square /\ (SQUARE_MAX_COUNT <= countSquare)%nat)
  then (false, mkSpawnState entities (s_nextId st) c)
  else if decide (kind = triangle /\ (TRIANGLE_MAX_COUNT <= countTri)%nat)
  then (false, mkSpawnState entities (s_nextId st) c)
  else
    let speed := ENTITY_SPEED_MIN + rnd c * (ENTITY_SPEED_MAX - ENTITY_SPEED_MIN) in
    let dir := rnd (c + 1) * PI * 2 in
    let angVel := ENTITY_ANG_MIN + rnd (c + 2) * (ENTITY_ANG_MAX - ENTITY_ANG_MIN) in
    let size := if decide (kind = square) then SQUARE_SIZE else TRIANGLE_SIZE in
    let fill := if decide (kind = square) then SQUARE_FILL else TRIANGLE_FILL in
    let stroke := if decide (kind = square) then SQUARE_STROKE else TRIANGLE_STROKE in
    let maxHp := if decide (kind = square) then SQUARE_MAX_HP else TRIANGLE_MAX_HP in
    let e := {| e_id := s_nextId st;
                e_pos := mkVec2 x y;
                e_vel := mkVec2 (cos dir * speed) (sin dir * speed);
                e_kick := mkVec2 0 0;
                e_angle := rnd (c + 3) * PI * 2;
                e_angVel := angVel;
                e_size := size;
                e_kind := kind;
                e_fill := fill;
                e_stroke := stroke;
                e_hp := maxHp;
                e_maxHp := maxHp;
                e_hitT := None |} in
    (true, mkSpawnState (entities ++ [e]) (s_nextId st + 1) (c + 4)).

(** The [for (let i = 0; i < 20; i++)] loop with [n] iterations left. *)
Fixpoint spawnAttempts (n : nat) (st : SpawnState) (playerPos : Vec2)
    (mapW mapH safeRadius : R) (kind : EntityKind) : bool * SpawnState :=
  match n with
  | O => (false, st)
  | S n' =>
      let c := s_cursor st in
      let x := rnd c * mapW in
      let y := rnd (c + 1) * mapH in
      let dx := x - vx playerPos in
      let dy := y - vy playerPos in
      if decide (dx * dx + dy * dy < safeRadius * safeRadius)
      then spawnAttempts n'
             (mkSpawnState (s_entities st) (s_nextId st) (c + 2))
             playerPos mapW mapH safeRadius kind
      else placeEntity st (c + 2) x y kind
  end.

Definition spawnEntityRandomAvoidingPlayers (st : SpawnState) (playerPos : Vec2)
    (mapW mapH safeRadius : R) (kind : EntityKind) : bool * SpawnState :=
  spawnAttempts 20 st playerPos mapW mapH safeRadius kind.

End Spawn.

(** *** Shape-on-shape collisions (SAT) *)
















End Entities.

(** ** game/bulletSystem.ts *)

Module BulletSystem.
Import Entities.

(** A bullet as [updateBullets] uses it: besides the fields of the
    [Bullet] interface of [game/tank.ts], the function reads and writes
    [bullet.hp] (the remaining penetration budget) and reads
    [bullet.damage], which that interface predates. *)
Record Bullet := mkBullet {
  b_id : Z;
  b_pos : Vec2;
  b_vel : Vec2;
  b_radius : R;
  b_life : R;
  b_hp : R;
  b_damage : R
}.

Record CameraInfo := mkCameraInfo {
  cam_x : R;
  cam_y : R;
  cam_width : R;
  cam_height : R;
  cam_devicePixelRatio : R
}.

Record BulletUpdateResult := mkBulletUpdateResult {
  r_bullets : list Bullet;
  r_entities : list GameEntity;
  r_spawnsThisFrame : Z
}.

(** The body of the first [forEach]. *)
Definition integrateBullet (dt : R) (b : Bullet) : Bullet :=
  mkBullet (b_id b)
    (mkVec2 (vx (b_pos b) + vx (b_vel b) * dt) (vy (b_pos b) + vy (b_vel b) * dt))
    (b_vel b) (b_radius b) (b_life b - dt) (b_hp b) (b_damage b).

Definition maxBulletRadius (bullets : list Bullet) : R :=
  foldl (fun m bullet => if decide (b_radius bullet > m) then b_radius bullet else m)
    Tank.BULLET_RADIUS bullets.

Definition cellSizeFor (bullets : list Bullet) : R :=
  Js.max3 SQUARE_SIZE TRIANGLE_SIZE (maxBulletRadius bullets * 2).

(** [((cx << 16) ^ (cy & 0xffff)) | 0]. *)
Definition key (cx cy : Z) : Z :=
  Js.or32 (Js.xor32 (Js.shl32 cx 16) (Js.and32 cy 65535)) 0.

Definition cellOf (cellSize : R) (p : Vec2) : Z * Z :=
  (Zfloor (vx p / cellSize), Zfloor (vy p / cellSize)).

(** The buckets hold references to the entity objects, so that a hit
    written through a bucket is seen through the array as well: a
    reference is the index of the entity in the array. *)
Definition binEntity (cellSize : R) (bins : gmap Z (list nat))
    (ie : nat * GameEntity) : gmap Z (list nat) :=
  let '(cx, cy) := cellOf cellSize (e_pos ie.2) in
  let k := key cx cy in
  match bins !! k with
  | None => <[k := [ie.1]]> bins
  | Some bucket => <[k := bucket ++ [ie.1]]> bins
  end.

Definition buildBins (cellSize : R) (entities : list GameEntity)
    : gmap Z (list nat) :=
  foldl (binEntity cellSize) ∅ (imap pair entities).

(** The narrow-phase test of either branch of the scan. *)
Definition bulletTouches (bullet : Bullet) (entity : GameEntity) : bool :=
  match e_kind entity with
  | triangle =>
      let insetSize := Rmax 1 (e_size entity - 2 * ENTITY_COLLISION_INSET) in
      let '(v0, v1, v2) :=
        triangleWorldVerts (e_pos entity) (e_angle entity) insetSize in
      circleIntersectsTriangle
        (mkVec2 (vx (b_pos bullet)) (vy (b_pos bullet))) (b_radius bullet) v0 v1 v2
  | square =>
      let dxp := vx (b_pos bullet) - vx (e_pos entity) in
      let dyp := vy (b_pos bullet) - vy (e_pos entity) in
      let radius := b_radius bullet + computeEntityCollisionRadius (e_size entity) in
      bool_decide (dxp * dxp + dyp * dyp <= radius * radius)
  end.

(** The entity after the assignments of a hit: health, flash timer and
    knockback. *)
Definition struckEntity (bullet : Bullet) (entity : GameEntity) : GameEntity :=
  match e_kind entity with
  | triangle =>
      let baseDamage := Stats.SHAPE_BASE_DAMAGE triangle in
      let actualDamage :=
        Stats.computeBulletHitDamage (b_damage bullet) (b_hp bullet) baseDamage in
      let dxh := vx (e_pos entity) - vx (b_pos bullet) in
      let dyh := vy (e_pos entity) - vy (b_pos bullet) in
      let len := Js.or_else (Js.hypot dxh dyh) 1 in
      set_kick
        (set_hitT (set_hp entity (Rmax 0 (e_hp entity - actualDamage)))
           HIT_FLASH_DURATION)
        (mkVec2 (vx (e_kick entity) + (dxh / len) * ENTITY_BOUNCE)
                (vy (e_kick entity) + (dyh / len) * ENTITY_BOUNCE))
  | square =>
      let baseDamage := Stats.SHAPE_BASE_DAMAGE square in
      let actualDamage :=
        Stats.computeBulletHitDamage (b_damage bullet) (b_hp bullet) baseDamage in
      let dxp := vx (b_pos bullet) - vx (e_pos entity) in
      let dyp := vy (b_pos bullet) - vy (e_pos entity) in
      let len := Js.or_else (Js.hypot dxp dyp) 1 in
      set_kick
        (set_hitT (set_hp entity (Rmax 0 (e_hp entity - actualDamage)))
           HIT_FLASH_DURATION)
        (mkVec2 (vx (e_kick entity) - (dxp / len) * ENTITY_BOUNCE)
                (vy (e_kick entity) - (dyp / len) * ENTITY_BOUNCE))
  end.

(** The bullet after [bullet.hp -= baseDamage; if (bullet.hp <= 0)
    bullet.life = 0]. *)
Definition spentBullet (bullet : Bullet) (kind : EntityKind) : Bullet :=
  let hp := b_hp bullet - Stats.SHAPE_BASE_DAMAGE kind in
  mkBullet (b_id bullet) (b_pos bullet) (b_vel bullet) (b_radius bullet)
    (if decide (hp <= 0) then 0 else b_life bullet) hp (b_damage bullet).

(** [first_some f l]: the first result of a loop body that leaves the
    loop ([continue bulletLoop]) as soon as it produces one. *)
Fixpoint first_some {A B : Type} (f : A -> option B) (l : list A) : option B :=
  match l with
  | [] => None
  | x :: rest => match f x with Some r => Some r | None => first_some f rest end
  end.

Definition offsets : list Z := [-1; 0; 1]%Z.

Section WithCallbacks.
(** [W] is whatever state the callbacks reach outside the two arrays
    (the death-effect queue, the pending rewards, the identifier
    counter, the random source). *)
Context {W : Type}.
Variable spawnSquare : list GameEntity -> W -> bool * list GameEntity * W.
Variable spawnTriangle : list GameEntity -> W -> bool * list GameEntity * W.
Variable queueDeathEffect : GameEntity -> W -> W.
Variable onEntityKilled : option (GameEntity -> W -> W).

(** The locals of the hit pass. *)
Record HitState := mkHitState {
  h_entities : list GameEntity;
  h_removed : gset Z;
  h_removedSquares : nat;
  h_removedTriangles : nat;
  h_world : W
}.

(** The body of [if (circleIntersectsTriangle(...))] and of its
    counterpart for squares, for the entity referenced by [i]. *)
Definition hitEntity (bullet : Bullet) (i : nat) (entity : GameEntity)
    (st : HitState) : Bullet * HitState :=
  let entity' := struckEntity bullet entity in
  let bullet' := spentBullet bullet (e_kind entity) in
  let entities' := <[i := entity']> (h_entities st) in
  if decide (e_hp entity' <= 0)
  then
    let w1 := queueDeathEffect entity' (h_world st) in
    let w2 := match onEntityKilled with
              | Some f => f entity' w1
              | None => w1
              end in
    (bullet',
     mkHitState entities' ({[e_id entity']} ∪ h_removed st)
       (match e_kind entity with
        | square => S (h_removedSquares st) | triangle => h_removedSquares st end)
       (match e_kind entity with
        | triangle => S (h_removedTriangles st) | square => h_removedTriangles st end)
       w2)
  else
    (bullet',
     mkHitState entities' (h_removed st) (h_removedSquares st)
       (h_removedTriangles st) (h_world st)).

(** [for (const entity of bucket)]. *)
Definition scanBucket (bullet : Bullet) (st : HitState) (bucket : list nat)
    : option (Bullet * HitState) :=
  first_some
    (fun i =>
       match h_entities st !! i with
       | None => None
       | Some entity =>
           if decide (e_id entity ∈ h_removed st) then None
           else if bulletTouches bullet entity
                then Some (hitEntity bullet i entity st)
                else None
       end)
    bucket.

(** The two loops over [dx] and [dy]. *)
Definition scanCells (bins : gmap Z (list nat)) (bullet : Bullet)
    (st : HitState) (cx cy : Z) : option (Bullet * HitState) :=
  first_some
    (fun dx =>
       first_some
         (fun dy =>
            match bins !! key (cx + dx) (cy + dy) with
            | None => None
            | Some bucket => scanBucket bullet st bucket
            end)
         offsets)
    offsets.

(** One iteration of [bulletLoop]. *)
Definition processBullet (cellSize : R) (bins : gmap Z (list nat))
    (st : HitState) (bullet : Bullet) : Bullet * HitState :=
  if decide (b_life bullet <= 0) then (bullet, st)
  else
    let '(cx, cy) := cellOf cellSize (b_pos bullet) in
    match scanCells bins bullet st cx cy with
    | Some r => r
    | None => (bullet, st)
    end.

Fixpoint bulletLoop (cellSize : R) (bins : gmap Z (list nat))
    (bullets : list Bullet) (st : HitState) : list Bullet * HitState :=
  match bullets with
  | [] => ([], st)
  | bullet :: rest =>
      let '(bullet', st') := processBullet cellSize bins st bullet in
      let '(rest', st'') := bulletLoop cellSize bins rest st' in
      (bullet' :: rest', st'')
  end.

(** The locals of the two respawn loops. *)
Record RespawnState := mkRespawnState {
  p_entities : list GameEntity;
  p_spawned : Z;
  p_spawnsThisFrame : Z;
  p_world : W
}.

(** [while (removed > 0 && spawned < maxSpawnsPerFrame)]; the loop
    ends after at most [removed] rounds because every successful
    round decrements the counter. *)
Fixpoint respawnLoop (spawn : list GameEntity -> W -> bool * list GameEntity * W)
    (removed : nat) (maxSpawnsPerFrame : Z) (st : RespawnState) : RespawnState :=
  match removed with
  | O => st
  | S removed' =>
      if decide (p_spawned st < maxSpawnsPerFrame)%Z
      then
        let '(ok, entities', w') := spawn (p_entities st) (p_world st) in
        if ok
        then respawnLoop spawn removed' maxSpawnsPerFrame
               (mkRespawnState entities' (p_spawned st + 1)
                  (p_spawnsThisFrame st + 1) w')
        else mkRespawnState entities' (p_spawned st) (p_spawnsThisFrame st) w'
      else st
  end.

(** The last loop: the bullets that stay. *)
Definition inView (camera : CameraInfo) (bullet : Bullet) : bool :=
  let sx := vx (b_pos bullet) - cam_x camera in
  let sy := vy (b_pos bullet) - cam_y camera in
  bool_decide (sx > -40) && bool_decide (sx < cam_width camera + 40)
  && bool_decide (sy > -40) && bool_decide (sy < cam_height camera + 40).

Definition keepBullet (camera : CameraInfo) (bullet : Bullet) : bool :=
  if decide (b_life bullet <= 0) then false else inView camera bullet.

(** What a call leaves behind: the returned object, the bullet objects
    of the argument array as the call mutated them, and the state of
    the callbacks. *)
Record Outcome := mkOutcome {
  o_result : BulletUpdateResult;
  o_bullets : list Bullet;
  o_world : W
}.

Definition updateBullets (bullets : list Bullet) (entities : list GameEntity)
    (dt : R) (camera : CameraInfo) (spawnsThisFrame maxSpawnsPerFrame : Z)
    (w : W) : Outcome :=
  let bullets1 := map (integrateBullet dt) bullets in
  let '(bullets2, entities2, spawns2, w2) :=
    if decide (length entities <> 0%nat /\ length bullets1 <> 0%nat)
    then
      let cellSize := cellSizeFor bullets1 in
      let bins := buildBins cellSize entities in
      let '(bs, st) :=
        bulletLoop cellSize bins bullets1 (mkHitState entities ∅ 0 0 w) in
      if decide (size (h_removed st) <> 0%nat)
      then
        let kept :=
          filter (fun entity => e_id entity ∉ h_removed st) (h_entities st) in
        let p0 := mkRespawnState kept 0 spawnsThisFrame (h_world st) in
        let p1 := respawnLoop spawnSquare (h_removedSquares st)
                    maxSpawnsPerFrame p0 in
        let p2 := respawnLoop spawnTriangle (h_removedTriangles st)
                    maxSpawnsPerFrame p1 in
        (bs, p_entities p2, p_spawnsThisFrame p2, p_world p2)
      else (bs, h_entities st, spawnsThisFrame, h_world st)
    else (bullets1, entities, spawnsThisFrame, w) in
  mkOutcome
    (mkBulletUpdateResult (filter (fun b => keepBullet camera b = true) bullets2)
       entities2 spawns2)
    bullets2 w2.

End WithCallbacks.

End BulletSystem.

(** ** The component: stat allocation, body contact and regeneration *)

Module App.
Import Entities.

Definition INITIAL_STATS : Stats.StatPoints :=
  Stats.mkStatPoints 0 0 0 0 0 0 0 0.

(** [playerStatsRef] and the level of [playerProgressRef]. *)
Record Player := mkPlayer {
  playerStats : Stats.StatPoints;
  level : Z
}.

(** A [keydown] event: [e.repeat] and the value of
    [Number.parseInt(e.key, 10)], [None] standing for [NaN]. *)
Record KeyEvent := mkKeyEvent {
  ev_repeat : bool;
  ev_idx : option Z
}.

Definition maxedCount (stats : Stats.StatPoints) : nat :=
  length (filter (fun value => (value >= Stats.MAX_STAT_POINTS)%Z) (Stats.values stats)).

(** The handler of the number keys 1-8. *)
Definition onKeyDown (e : KeyEvent) (p : Player) : Player :=
  if ev_repeat e then p
  else
    match ev_idx e with
    | None => p
    | Some idx =>
        if decide (idx < 1 \/ idx > Z.of_nat (length Stats.STAT_ORDER))%Z then p
        else
          match Stats.STAT_ORDER !! Z.to_nat (idx - 1) with
          | None => p
          | Some key =>
              let current := Stats.get (playerStats p) key in
              if decide (current >= Stats.MAX_STAT_POINTS)%Z then p
              else if decide (current = Stats.MAX_STAT_POINTS - 1
                              /\ 4 <= Z.of_nat (maxedCount (playerStats p)))%Z
              then p
              else
                let available :=
                  Stats.availableSkillPoints (IZR (level p)) (playerStats p) in
                if decide (available <= 0)%Z then p
                else mkPlayer (Stats.set (playerStats p) key (current + 1)) (level p)
          end
    end.

(** What the closure [onPlayerCollide] of a frame reads and writes. *)
Record Contact := mkContact {
  tankHp : R;
  tankHitT : R;
  tookDamage : bool;
  killedByBody : gset Z;
  pendingXp : Z;
  pendingScore : Z
}.

(** [onPlayerCollide(entity, overlapDt)]: the closure state and the
    entity object after the call. *)
Definition onPlayerCollide (derived : Stats.DerivedStats) (tankVel : Vec2)
    (entity : GameEntity) (overlapDt : R) (c : Contact) : Contact * GameEntity :=
  let hp := Rmax 0 (tankHp c - PLAYER_CONTACT_DPS * overlapDt) in
  let speed := Js.hypot (vx tankVel) (vy tankVel) in
  let impact := Stats.impactMultiplierFromSpeed speed in
  let bodyDamage := Stats.bodyDamageShape derived * impact * overlapDt in
  let entity' :=
    set_hitT (set_hp entity (Rmax 0 (e_hp entity - bodyDamage))) HIT_FLASH_DURATION in
  if decide (e_hp entity' <= 0)
  then
    (mkContact hp HIT_FLASH_DURATION true ({[e_id entity']} ∪ killedByBody c)
       (pendingXp c + Stats.xpForKill (e_kind entity') (e_maxHp entity'))
       (pendingScore c + Stats.scoreForKill (e_kind entity') (e_maxHp entity')),
     entity')
  else
    (mkContact hp HIT_FLASH_DURATION true (killedByBody c)
       (pendingXp c) (pendingScore c),
     entity').

(** The end of a frame: regeneration when no damage was taken, then the
    clamp to the derived maximum.  Returns the health and the time since
    the last damage. *)
Definition settleHealth (derived : Stats.DerivedStats) (dt : R)
    (tookDamage : bool) (timeSinceDamage hp : R) : R * R :=
  let '(timeSinceDamage', hp') :=
    if tookDamage then (0, hp)
    else
      let t := timeSinceDamage + dt in
      if decide (t > 0)
      then
        let isHyper := bool_decide (t >= Stats.REGEN_HYPER_DELAY) in
        let regen :=
          Stats.regenPerSecond derived
          * (if isHyper then Stats.REGEN_HYPER_MULTIPLIER else 1) in
        (t, Rmin (Stats.maxHp derived) (hp + regen * dt))
      else (t, hp) in
  (Rmin (Stats.maxHp derived) hp', timeSinceDamage').

End App.

(** * Properties and sample data

    The predicates the theorems are stated with, and the concrete
    inputs they are exercised on. *)

Import Stats Tank Entities BulletSystem App.

(** ** Skill points *)

(** Modelled from the spec: the stepped function of the progression
    rules -- one point per level for up to 27 points of per-level growth,
    one bonus point from level 30 on, one extra point every 3 levels from
    level 33 on, and never more than 33 in all. *)
Definition steppedSkillPoints (lvl : Z) : Z :=
  let perLevel := Z.min 27 (Z.max 0 (lvl - 1)) in
  let bonus30 := if decide (30 <= lvl)%Z then 1%Z else 0%Z in
  let every3 := if decide (33 <= lvl)%Z then ((lvl - 33) `div` 3 + 1)%Z else 0%Z in
  Z.min 33 (perLevel + bonus30 + every3).

(** ** Stat allocation *)

(** The two allocation rules: the allocated points fit the budget of the
    level, and at most four slots sit at the maximum. *)
Definition withinBudget (p : Player) : Prop :=
  (sumStatPoints (playerStats p) <= totalSkillPointsForLevel (IZR (level p)))%Z.

Definition atMostFourMaxed (p : Player) : Prop :=
  (maxedCount (playerStats p) <= 4)%nat.

Definition allocationRules (p : Player) : Prop :=
  withinBudget p /\ atMostFourMaxed p.

(** The state a granted request for [key] leads to. *)
Definition raised (p : Player) (key : StatKey) : Player :=
  mkPlayer (Stats.set (playerStats p) key (Stats.get (playerStats p) key + 1)) (level p).

(** The slot a key event asks to raise, if any. *)
Definition requestedSlot (e : KeyEvent) : option StatKey :=
  if ev_repeat e then None
  else match ev_idx e with
       | None => None
       | Some idx =>
           if decide (idx < 1 \/ idx > Z.of_nat (length STAT_ORDER))%Z then None
           else STAT_ORDER !! Z.to_nat (idx - 1)
       end.

(** One for a slot at the maximum, zero otherwise. *)
Definition isMaxed (v : Z) : nat := if decide (v >= MAX_STAT_POINTS)%Z then 1%nat else 0%nat.

(** ** Spawning *)

(** The [i]-th point the loop would draw from cursor [c] lies inside the
    safe radius. *)
Definition attemptTooClose (rnd : nat -> R) (c : nat) (playerPos : Vec2)
    (mapW mapH safeRadius : R) (i : nat) : Prop :=
  let x := rnd (c + 2 * i)%nat * mapW in
  let y := rnd (c + 2 * i + 1)%nat * mapH in
  (x - vx playerPos) * (x - vx playerPos) + (y - vy playerPos) * (y - vy playerPos)
  < safeRadius * safeRadius.

(** The population of the kind is at its cap. *)
Definition capReached (kind : EntityKind) (entities : list GameEntity) : Prop :=
  match kind with
  | square => (SQUARE_MAX_COUNT <= countKind square entities)%nat
  | triangle => (TRIANGLE_MAX_COUNT <= countKind triangle entities)%nat
  end.

(** ** Health *)

(** The health invariant of an entity. *)
Definition healthInRange (e : GameEntity) : Prop := 0 <= e_hp e <= e_maxHp e.

(** A bullet as the component fires it: a damage value and a penetration
    budget that are not negative. *)
Definition damaging (b : Bullet) : Prop := 0 <= b_damage b /\ 0 <= b_hp b.

(** Stat points as the allocation leaves them: none below zero. *)
Definition nonNegative (points : Stats.StatPoints) : Prop :=
  Forall (fun v => (0 <= v)%Z) (Stats.values points).

(** A spawn callback that only adds entities at full health. *)
Definition spawnsHealthy {W : Type}
    (spawn : list GameEntity -> W -> bool * list GameEntity * W) : Prop :=
  forall es w, Forall healthInRange es -> Forall healthInRange (spawn es w).1.2.

(** ** Bullets *)

(** What the hit pass may do to a bullet: nothing, or the budget and
    lifetime assignments of one hit. *)
Definition budgetStep (b b' : Bullet) : Prop :=
  b' = b \/ exists kind, b' = spentBullet b kind.

(** ** The spatial hash *)





Definition freshSquare : GameEntity :=
  mkGameEntity 1 (mkVec2 0 0) (mkVec2 5 0) (mkVec2 0 0) 0 0 38 square
    SQUARE_FILL SQUARE_STROKE 10 10 None.


(** ** Triangles *)




(** ** Projections and the minimum translation vector *)










(** * Progression and bullet damage *)

Lemma skillPoints_of_floor (level : R) :
  totalSkillPointsForLevel level = steppedSkillPoints (Zfloor level).
Proof.
  unfold totalSkillPointsForLevel, steppedSkillPoints, MAX_LEVEL, MAX_SKILL_POINTS.
  generalize (Zfloor level) as n. intros n.
  destruct (Z_lt_le_dec n 1) as [Hlo|Hlo].
  { replace (Z.max 1 (Z.min 45 n)) with 1%Z by lia.
    change ((1 - 33) `div` 3)%Z with (-11)%Z.
    repeat case_decide; lia. }
  destruct (Z_lt_le_dec 45 n) as [Hhi|Hhi].
  { replace (Z.max 1 (Z.min 45 n)) with 45%Z by lia.
    repeat case_decide; try lia.
    assert (4 <= (n - 33) `div` 3)%Z by (apply Z.div_le_lower_bound; lia).
    change ((45 - 33) `div` 3)%Z with 4%Z. lia. }
  replace (Z.max 1 (Z.min 45 n)) with n by lia.
  repeat case_decide; try lia.
  - assert ((n - 33) `div` 3 <= 4)%Z by (apply Z.div_le_upper_bound; lia).
    assert (0 <= (n - 33) `div` 3)%Z by (apply Z.div_pos; lia).
    lia.
  - assert ((n - 33) `div` 3 < 0)%Z by (apply Z.div_lt_upper_bound; lia).
    lia.
  - assert ((n - 33) `div` 3 < 0)%Z by (apply Z.div_lt_upper_bound; lia).
    lia.
Qed.

(** C2: [totalSkillPointsForLevel] gives 0 at level 1, 9 at level 10, 28
    at level 30 and 33 at level 45, and at every level it is the stepped
    function [steppedSkillPoints] of the whole part of the level. *)
Theorem totalSkillPointsForLevel_stepped :
  totalSkillPointsForLevel 1 = 0%Z /\
  totalSkillPointsForLevel 10 = 9%Z /\
  totalSkillPointsForLevel 30 = 28%Z /\
  totalSkillPointsForLevel 45 = 33%Z /\
  forall level : R,
    totalSkillPointsForLevel level = steppedSkillPoints (Zfloor level).
Proof.
  repeat split.
  1-4: rewrite skillPoints_of_floor, ZfloorZ; reflexivity.
  apply skillPoints_of_floor.
Qed.

(** C3, as stated, fails below the floor of one millionth that the code
    puts under the divisor: with damage 1, budget 1e-7 and resistance
    5e-7 the result is not [bulletDamage * (bulletHp / targetBaseDamage)]. *)
Lemma computeBulletHitDamage_tiny_resistance :
  let bulletDamage := 1 in
  let bulletHp := 1 / 10000000 in
  let targetBaseDamage := 5 / 10000000 in
  0 <= bulletDamage /\ 0 <= bulletHp /\ 0 <= targetBaseDamage /\
  bulletHp < targetBaseDamage /\
  computeBulletHitDamage bulletDamage bulletHp targetBaseDamage
    <> bulletDamage * (bulletHp / targetBaseDamage).
Proof.
  cbv zeta. repeat split; try lra.
  unfold computeBulletHitDamage.
  rewrite decide_True by lra.
  rewrite Rmax_left by lra. lra.
Qed.

(** C3, amended: [computeBulletHitDamage] returns the full damage whenever
    the budget is at least the resistance (equality included); below it,
    the damage is scaled by the budget over the larger of the resistance
    and one millionth, which is the ratio budget / resistance as soon as
    the resistance is at least one millionth. *)
Theorem computeBulletHitDamage_cases (bulletDamage bulletHp targetBaseDamage : R) :
  (bulletHp >= targetBaseDamage ->
     computeBulletHitDamage bulletDamage bulletHp targetBaseDamage = bulletDamage) /\
  (bulletHp < targetBaseDamage ->
     computeBulletHitDamage bulletDamage bulletHp targetBaseDamage
     = bulletDamage * (bulletHp / Rmax (1 / 1000000) targetBaseDamage)) /\
  (bulletHp < targetBaseDamage -> 1 / 1000000 <= targetBaseDamage ->
     computeBulletHitDamage bulletDamage bulletHp targetBaseDamage
     = bulletDamage * (bulletHp / targetBaseDamage)).
Proof.
  unfold computeBulletHitDamage. repeat split; intros.
  - rewrite decide_False by lra. reflexivity.
  - rewrite decide_True by lra. reflexivity.
  - rewrite decide_True by lra. rewrite Rmax_right by lra. reflexivity.
Qed.

(** The rule at a budget equal to the resistance, and at half of it. *)
Lemma computeBulletHitDamage_cases_witness :
  computeBulletHitDamage 7 2 2 = 7 /\
  computeBulletHitDamage 7 2 4 = 7 * (2 / Rmax (1 / 1000000) 4) /\
  computeBulletHitDamage 7 2 4 = 7 * (2 / 4).
Proof.
  destruct (computeBulletHitDamage_cases 7 2 2) as (H1 & _ & _).
  destruct (computeBulletHitDamage_cases 7 2 4) as (_ & H2 & H3).
  split; [apply H1; lra|]. split; [apply H2; lra | apply H3; lra].
Defined.

(** * Tank movement *)

Section HypotFacts.

Lemma hypot_nonneg x y : 0 <= Js.hypot x y.
Proof. apply sqrt_pos. Qed.

Lemma hypot_sqr x y : Js.hypot x y * Js.hypot x y = x * x + y * y.
Proof. unfold Js.hypot. apply sqrt_sqrt. nra. Qed.


Lemma hypot_le_of_sqr x y c : 0 <= c -> x * x + y * y <= c * c -> Js.hypot x y <= c.
Proof.
  intros Hc H. unfold Js.hypot.
  rewrite <- (sqrt_square c) by lra. apply sqrt_le_1_alt. lra.
Qed.


End HypotFacts.




(** * Stat allocation *)

Lemma maxedCount_sum s :
  maxedCount s =
  (isMaxed (sp_maxHealth s) + isMaxed (sp_healthRegen s) + isMaxed (sp_bodyDamage s)
   + isMaxed (sp_bulletSpeed s) + isMaxed (sp_bulletPenetration s)
   + isMaxed (sp_bulletDamage s) + isMaxed (sp_reload s) + isMaxed (sp_movementSpeed s))%nat.
Proof.
  unfold maxedCount, values, isMaxed.
  rewrite !filter_cons, filter_nil.
  repeat case_decide; reflexivity.
Qed.

Lemma sumStatPoints_set s key :
  sumStatPoints (Stats.set s key (Stats.get s key + 1)) = (sumStatPoints s + 1)%Z.
Proof. destruct s, key; unfold sumStatPoints; cbn; lia. Qed.

Lemma isMaxed_succ v :
  ~ (v >= MAX_STAT_POINTS)%Z ->
  isMaxed (v + 1) =
  (isMaxed v + (if decide (v = MAX_STAT_POINTS - 1)%Z then 1 else 0))%nat.
Proof. unfold isMaxed, MAX_STAT_POINTS. intros. repeat case_decide; lia. Qed.

Lemma maxedCount_set s key :
  maxedCount (Stats.set s key (Stats.get s key + 1)) =
  (maxedCount s + (if decide (Stats.get s key = MAX_STAT_POINTS - 1)%Z then 1 else 0)
   - 0)%nat
  \/ (Stats.get s key >= MAX_STAT_POINTS)%Z.
Proof.
  destruct (decide (Stats.get s key >= MAX_STAT_POINTS)%Z) as [|Hlt]; [by right|left].
  rewrite !maxedCount_sum.
  destruct s, key;
    cbn [Stats.set Stats.get sp_maxHealth sp_healthRegen sp_bodyDamage sp_bulletSpeed
         sp_bulletPenetration sp_bulletDamage sp_reload sp_movementSpeed] in *;
    rewrite isMaxed_succ by exact Hlt; lia.
Qed.

Lemma onKeyDown_cases e p :
  onKeyDown e p = p \/
  exists key, requestedSlot e = Some key /\ onKeyDown e p = raised p key /\
    (Stats.get (playerStats p) key < MAX_STAT_POINTS)%Z /\
    ~ (Stats.get (playerStats p) key = MAX_STAT_POINTS - 1
       /\ 4 <= Z.of_nat (maxedCount (playerStats p)))%Z /\
    (0 < availableSkillPoints (IZR (level p)) (playerStats p))%Z.
Proof.
  unfold onKeyDown, requestedSlot.
  destruct (ev_repeat e); [by left|].
  destruct (ev_idx e) as [idx|]; [|by left].
  case_decide; [by left|].
  destruct (STAT_ORDER !! Z.to_nat (idx - 1)) as [key|]; [|by left].
  repeat (case_decide; [by left|]).
  right. exists key. repeat split; try done; lia.
Qed.

Lemma onKeyDown_preserves e p : allocationRules p -> allocationRules (onKeyDown e p).
Proof.
  intros [Hb Hm].
  destruct (onKeyDown_cases e p) as [->|(key & _ & -> & Hlt & Hcap & Hav)]; [done|].
  unfold allocationRules, withinBudget, atMostFourMaxed, raised in *; cbn [playerStats level].
  split.
  - rewrite sumStatPoints_set. unfold availableSkillPoints in Hav. lia.
  - destruct (maxedCount_set (playerStats p) key) as [->|]; [|lia].
    case_decide; lia.
Qed.

Lemma onKeyDown_rejects e p key :
  allocationRules p -> requestedSlot e = Some key ->
  ~ allocationRules (raised p key) -> onKeyDown e p = p.
Proof.
  intros HI Hreq Hbad.
  destruct (onKeyDown_cases e p) as [->|(key' & Hreq' & Heq & _)]; [done|].
  assert (key' = key) as -> by congruence.
  exfalso. apply Hbad. rewrite <- Heq. by apply onKeyDown_preserves.
Qed.

Lemma onKeyDown_fifth_maxed e p key :
  requestedSlot e = Some key ->
  Stats.get (playerStats p) key = (MAX_STAT_POINTS - 1)%Z ->
  (4 <= maxedCount (playerStats p))%nat ->
  onKeyDown e p = p.
Proof.
  intros Hreq Hcur Hfour.
  destruct (onKeyDown_cases e p) as [->|(key' & Hreq' & _ & _ & Hcap & _)]; [done|].
  assert (key' = key) as -> by congruence.
  exfalso. apply Hcap. split; [done|lia].
Qed.

Lemma totalSkillPointsForLevel_two : totalSkillPointsForLevel (IZR 2) = 1%Z.
Proof. rewrite skillPoints_of_floor, ZfloorZ. reflexivity. Qed.

(** C5: from a state that satisfies the two allocation rules, every
    sequence of key events leads to a state that satisfies them; a request
    whose grant would break a rule changes nothing; and raising a slot from
    6 to the maximum while four slots are at the maximum changes nothing,
    whatever the budget. *)
Theorem allocation_rules_invariant (p : Player) (events : list KeyEvent) :
  allocationRules p ->
  allocationRules (foldl (fun q e => onKeyDown e q) p events) /\
  (forall e key, requestedSlot e = Some key ->
     ~ allocationRules (raised p key) -> onKeyDown e p = p) /\
  (forall q e key, requestedSlot e = Some key ->
     Stats.get (playerStats q) key = (MAX_STAT_POINTS - 1)%Z ->
     (4 <= maxedCount (playerStats q))%nat ->
     onKeyDown e q = q).
Proof.
  intros HI. split; [|split].
  - revert p HI. induction events as [|e events IH]; intros p HI; [done|].
    cbn. apply IH. by apply onKeyDown_preserves.
  - intros e key. by apply onKeyDown_rejects.
  - intros q e key. apply onKeyDown_fifth_maxed.
Qed.

Lemma initial_allocationRules lvl : allocationRules (mkPlayer INITIAL_STATS lvl).
Proof.
  split.
  - unfold withinBudget; cbn [playerStats level].
    change (sumStatPoints INITIAL_STATS) with 0%Z.
    unfold totalSkillPointsForLevel, MAX_SKILL_POINTS. cbv zeta.
    case_decide; lia.
  - unfold atMostFourMaxed. cbn [playerStats]. rewrite maxedCount_sum.
    unfold isMaxed, MAX_STAT_POINTS, INITIAL_STATS; cbn. repeat case_decide; lia.
Qed.

(** With one point to spend, the first request is granted and the second
    changes nothing; with four slots at 7, a fifth stays at 6. *)
Lemma allocation_rules_invariant_witness :
  let p := mkPlayer INITIAL_STATS 2 in
  let p1 := raised p healthRegen in
  let full := mkPlayer (mkStatPoints 7 7 7 7 6 0 0 0) 45 in
  allocationRules
    (foldl (fun q e => onKeyDown e q) p
       [mkKeyEvent false (Some 1%Z); mkKeyEvent false (Some 2%Z)]) /\
  onKeyDown (mkKeyEvent false (Some 2%Z)) p1 = p1 /\
  onKeyDown (mkKeyEvent false (Some 5%Z)) full = full.
Proof.
  cbv zeta. split; [|split].
  - apply (allocation_rules_invariant (mkPlayer INITIAL_STATS 2)).
    apply initial_allocationRules.
  - set (p1 := raised (mkPlayer INITIAL_STATS 2) healthRegen).
    assert (H1 : allocationRules p1).
    { split.
      - unfold withinBudget. cbn [p1 raised playerStats level].
        rewrite totalSkillPointsForLevel_two. vm_compute. discriminate.
      - unfold atMostFourMaxed. vm_compute. lia. }
    destruct (allocation_rules_invariant p1 [] H1) as (_ & Hreject & _).
    apply (Hreject _ maxHealth); [reflexivity|].
    intros [Hbudget _]. unfold withinBudget in Hbudget.
    cbn [p1 raised playerStats level] in Hbudget.
    rewrite totalSkillPointsForLevel_two in Hbudget. vm_compute in Hbudget.
    by apply Hbudget.
  - destruct (allocation_rules_invariant (mkPlayer INITIAL_STATS 2) []
                (initial_allocationRules 2)) as (_ & _ & Hfifth).
    apply (Hfifth _ _ bulletPenetration); [reflexivity|reflexivity|].
    vm_compute. lia.
Defined.

(** * Spawning *)

Section SpawnFacts.
Variable rnd : nat -> R.
Variables (playerPos : Vec2) (mapW mapH safeRadius : R) (kind : EntityKind).

Lemma placeEntity_spec st c x y :
  let r := placeEntity rnd st c x y kind in
  (r.1 = false /\ capReached kind (s_entities st) /\
     s_entities r.2 = s_entities st /\ s_nextId r.2 = s_nextId st /\ s_cursor r.2 = c)
  \/ (r.1 = true /\ ~ capReached kind (s_entities st) /\
      (exists e, s_entities r.2 = s_entities st ++ [e] /\ e_kind e = kind /\
                 e_id e = s_nextId st /\ e_pos e = mkVec2 x y /\
                 0 <= e_hp e <= e_maxHp e) /\
      s_nextId r.2 = (s_nextId st + 1)%Z /\ s_cursor r.2 = (c + 4)%nat).
Proof.
  unfold placeEntity, capReached. cbv zeta.
  destruct kind; repeat case_decide; cbn [fst snd s_entities s_nextId s_cursor];
    try (exfalso; intuition congruence);
    try (left; repeat split; (done || lia || tauto));
    try (right; split; [done|]; split; [lia || tauto|]; split; [|done];
         eexists; split; [reflexivity|]; cbn;
         unfold SQUARE_MAX_HP, TRIANGLE_MAX_HP; repeat split; (done || lra)).
Qed.

Lemma spawnAttempts_spec n st :
  let r := spawnAttempts rnd n st playerPos mapW mapH safeRadius kind in
  (exists k, (k <= n)%nat /\
     s_cursor r.2 = (s_cursor st + 2 * k + (if r.1 then 4 else 0))%nat /\
     (forall i, (S i < k)%nat ->
        attemptTooClose rnd (s_cursor st) playerPos mapW mapH safeRadius i) /\
     (r.1 = true -> (0 < k)%nat /\
        ~ attemptTooClose rnd (s_cursor st) playerPos mapW mapH safeRadius (k - 1)))
  /\ (r.1 = false -> s_entities r.2 = s_entities st /\ s_nextId r.2 = s_nextId st)
  /\ (r.1 = true ->
        exists e, s_entities r.2 = s_entities st ++ [e] /\ e_kind e = kind /\
                  e_id e = s_nextId st /\ 0 <= e_hp e <= e_maxHp e /\
                  s_nextId r.2 = (s_nextId st + 1)%Z)
  /\ ((forall i, (i < n)%nat ->
         attemptTooClose rnd (s_cursor st) playerPos mapW mapH safeRadius i) ->
      r.1 = false)
  /\ (capReached kind (s_entities st) -> r.1 = false).
Proof.
  revert st. induction n as [|n IH]; intros st; cbn [spawnAttempts].
  { cbn. split; [exists 0%nat; repeat split; (lia || done)|]. repeat split; done. }
  cbv zeta. case_decide as Hclose.
  - specialize (IH (mkSpawnState (s_entities st) (s_nextId st) (s_cursor st + 2))).
    cbv zeta in IH. cbn [s_entities s_nextId s_cursor] in IH.
    destruct IH as ((k & Hk & Hcur & Hbefore & Hlast) & Hfalse & Htrue & Hall & Hcap).
    split; [|split; [|split; [|split]]]; try assumption.
    + exists (S k). split; [lia|]. split; [lia|]. split.
      * intros i Hi. destruct i as [|i].
        -- unfold attemptTooClose. replace (s_cursor st + 2 * 0)%nat with (s_cursor st) by lia.
           exact Hclose.
        -- specialize (Hbefore i ltac:(lia)). unfold attemptTooClose in *.
           replace (s_cursor st + 2 * S i)%nat with (s_cursor st + 2 + 2 * i)%nat by lia.
           exact Hbefore.
      * intros Hok. destruct (Hlast Hok) as [Hpos Hnot]. split; [lia|].
        unfold attemptTooClose in *.
        replace (s_cursor st + 2 * (S k - 1))%nat
          with (s_cursor st + 2 + 2 * (k - 1))%nat by lia.
        exact Hnot.
    + intros Hi. apply Hall. intros i Hlt. specialize (Hi (S i) ltac:(lia)).
      unfold attemptTooClose in *.
      replace (s_cursor st + 2 + 2 * i)%nat with (s_cursor st + 2 * S i)%nat by lia.
      exact Hi.
  - pose proof (placeEntity_spec st (s_cursor st + 2)
                  (rnd (s_cursor st) * mapW) (rnd (s_cursor st + 1) * mapH)) as Hp.
    cbv zeta in Hp.
    destruct (placeEntity rnd st (s_cursor st + 2) _ _ kind) as [ok st'].
    cbn [fst snd] in *.
    assert (Hfar : ~ attemptTooClose rnd (s_cursor st) playerPos mapW mapH safeRadius 0).
    { unfold attemptTooClose.
      replace (s_cursor st + 2 * 0)%nat with (s_cursor st) by lia. exact Hclose. }
    destruct Hp as [(-> & Hcap & He & Hid & Hc) | (-> & Hcap & (e & He & Hk & Hid & _ & Hhp) & Hn & Hc)].
    + split; [|split; [|split; [|split]]]; try done.
      exists 1%nat. repeat split; try (lia || done).
    + split; [|split; [|split; [|split]]]; try done.
      * exists 1%nat. repeat split; try (lia || done).
      * intros _. by exists e.
      * intros Hall. exfalso. apply Hfar, Hall. lia.
Qed.

End SpawnFacts.

(** A first point outside the safe radius is where the entity is placed. *)
Lemma spawnAttempts_first rnd n st playerPos mapW mapH safeRadius kind :
  ~ attemptTooClose rnd (s_cursor st) playerPos mapW mapH safeRadius 0 ->
  ~ capReached kind (s_entities st) ->
  (spawnAttempts rnd (S n) st playerPos mapW mapH safeRadius kind).1 = true.
Proof.
  unfold attemptTooClose, capReached. cbv zeta.
  rewrite Nat.mul_0_r, Nat.add_0_r. intros Hfar Hcap.
  cbn [spawnAttempts]. cbv zeta.
  rewrite decide_False by exact Hfar.
  unfold placeEntity. cbv zeta.
  destruct kind.
  - rewrite decide_False by (intros [_ H]; by apply Hcap).
    rewrite decide_False by (by intros [H _]). reflexivity.
  - rewrite decide_False by (by intros [H _]).
    rewrite decide_False by (intros [_ H]; by apply Hcap). reflexivity.
Qed.

(** C6: [spawnEntityRandomAvoidingPlayers] draws at most 20 points; it
    returns false when all 20 fall inside the safe radius and when the cap
    of the kind is reached; when it returns false the entities and the next
    id are those it was called with; when it returns true it has appended
    exactly one entity, of the requested kind. *)
Theorem spawnEntityRandomAvoidingPlayers_outcome (rnd : nat -> R) (st : SpawnState)
    (playerPos : Vec2) (mapW mapH safeRadius : R) (kind : EntityKind) :
  let r := spawnEntityRandomAvoidingPlayers rnd st playerPos mapW mapH safeRadius kind in
  (exists attempts, (attempts <= 20)%nat /\
     s_cursor r.2 = (s_cursor st + 2 * attempts + (if r.1 then 4 else 0))%nat)
  /\ ((forall i, (i < 20)%nat ->
         attemptTooClose rnd (s_cursor st) playerPos mapW mapH safeRadius i) ->
      r.1 = false)
  /\ (capReached kind (s_entities st) -> r.1 = false)
  /\ (r.1 = false -> s_entities r.2 = s_entities st /\ s_nextId r.2 = s_nextId st)
  /\ (r.1 = true ->
        exists e, s_entities r.2 = s_entities st ++ [e] /\ e_kind e = kind).
Proof.
  cbv zeta. unfold spawnEntityRandomAvoidingPlayers.
  pose proof (spawnAttempts_spec rnd playerPos mapW mapH safeRadius kind 20 st) as H.
  cbv zeta in H.
  destruct H as ((k & Hk & Hcur & _) & Hfalse & Htrue & Hall & Hcap).
  split; [by exists k|].
  split; [exact Hall|]. split; [exact Hcap|]. split; [exact Hfalse|].
  intros Hok. destruct (Htrue Hok) as (e & ? & ? & _). by exists e.
Qed.

(** With every draw at the middle of the map: blocked by a player in the
    middle, placed at once with the player in the corner. *)
Lemma spawnEntityRandomAvoidingPlayers_outcome_witness :
  let rnd := fun _ : nat => 1 / 2 in
  let st := mkSpawnState [] 1 0 in
  let blocked :=
    spawnEntityRandomAvoidingPlayers rnd st (mkVec2 750 750) 1500 1500 500 square in
  let placed :=
    spawnEntityRandomAvoidingPlayers rnd st (mkVec2 0 0) 1500 1500 500 square in
  (blocked.1 = false /\ s_entities blocked.2 = [] /\ s_nextId blocked.2 = 1%Z) /\
  (placed.1 = true /\ exists e, s_entities placed.2 = [e] /\ e_kind e = square).
Proof.
  cbv zeta. split.
  - destruct (spawnEntityRandomAvoidingPlayers_outcome (fun _ : nat => 1 / 2)
                (mkSpawnState [] 1 0) (mkVec2 750 750) 1500 1500 500 square)
      as (_ & Hclose & _ & Hfalse & _).
    assert (Hr : (spawnEntityRandomAvoidingPlayers (fun _ : nat => 1 / 2)
                    (mkSpawnState [] 1 0) (mkVec2 750 750) 1500 1500 500 square).1 = false).
    { apply Hclose. intros i _. unfold attemptTooClose. cbn [vx vy]. lra. }
    split; [exact Hr|]. apply Hfalse, Hr.
  - destruct (spawnEntityRandomAvoidingPlayers_outcome (fun _ : nat => 1 / 2)
                (mkSpawnState [] 1 0) (mkVec2 0 0) 1500 1500 500 square)
      as (_ & _ & _ & _ & Htrue).
    assert (Hr : (spawnEntityRandomAvoidingPlayers (fun _ : nat => 1 / 2)
                    (mkSpawnState [] 1 0) (mkVec2 0 0) 1500 1500 500 square).1 = true).
    { apply (spawnAttempts_first _ 19).
      - unfold attemptTooClose. cbn [vx vy]. lra.
      - unfold capReached, SQUARE_MAX_COUNT. cbn. lia. }
    split; [exact Hr|]. apply Htrue, Hr.
Defined.

(** * The hit pass of [updateBullets] *)

Lemma first_some_Some {A B : Type} (f : A -> option B) (l : list A) (r : B) :
  first_some f l = Some r -> exists x, x ∈ l /\ f x = Some r.
Proof.
  induction l as [|x l IH]; cbn; [done|].
  destruct (f x) as [r'|] eqn:Hfx.
  - intros [= <-]. exists x. split; [left|done].
  - intros H. destruct (IH H) as (y & Hy & Hfy). exists y. split; [by right|done].
Qed.


Section HitPass.
Context {W : Type}.
Variable queueDeathEffect : GameEntity -> W -> W.
Variable onEntityKilled : option (GameEntity -> W -> W).

#[local] Abbreviation hitEntity := (hitEntity queueDeathEffect onEntityKilled).
#[local] Abbreviation scanBucket := (scanBucket queueDeathEffect onEntityKilled).
#[local] Abbreviation scanCells := (scanCells queueDeathEffect onEntityKilled).
#[local] Abbreviation processBullet := (processBullet queueDeathEffect onEntityKilled).
#[local] Abbreviation bulletLoop := (bulletLoop queueDeathEffect onEntityKilled).

Lemma hitEntity_bullet b i e (st : HitState) :
  (hitEntity b i e st).1 = spentBullet b (e_kind e).
Proof. unfold BulletSystem.hitEntity. by case_decide. Qed.

Lemma hitEntity_entities b i e (st : HitState) :
  h_entities (hitEntity b i e st).2 = <[i := struckEntity b e]> (h_entities st).
Proof. unfold BulletSystem.hitEntity. by case_decide. Qed.

Lemma struckEntity_kind b e : e_kind (struckEntity b e) = e_kind e.
Proof. unfold struckEntity. destruct (e_kind e) eqn:Hk; cbn; by rewrite ?Hk. Qed.

Lemma struckEntity_id b e : e_id (struckEntity b e) = e_id e.
Proof. unfold struckEntity. destruct (e_kind e) eqn:Hk; cbn; by rewrite ?Hk. Qed.

Lemma struckEntity_maxHp b e : e_maxHp (struckEntity b e) = e_maxHp e.
Proof. unfold struckEntity. destruct (e_kind e) eqn:Hk; cbn; by rewrite ?Hk. Qed.


Lemma struckEntity_hp b e :
  e_hp (struckEntity b e) =
  Rmax 0 (e_hp e - Stats.computeBulletHitDamage (b_damage b) (b_hp b)
                     (Stats.SHAPE_BASE_DAMAGE (e_kind e))).
Proof. unfold struckEntity. destruct (e_kind e) eqn:Hk; cbn; by rewrite ?Hk. Qed.


Lemma scanBucket_Some b (st : HitState) bucket r :
  scanBucket b st bucket = Some r ->
  exists i e, i ∈ bucket /\ (h_entities st !! i) = Some e /\
    (e_id e ∉ h_removed st) /\ bulletTouches b e = true /\ r = hitEntity b i e st.
Proof.
  intros H. apply first_some_Some in H as (i & Hi & H).
  destruct (h_entities st !! i) as [e|] eqn:He; [|done].
  case_decide; [done|].
  destruct (bulletTouches b e) eqn:Ht; [|done].
  injection H as <-. by exists i, e.
Qed.

Lemma scanCells_Some bins b (st : HitState) cx cy r :
  scanCells bins b st cx cy = Some r ->
  exists dx dy bucket i e,
    dx ∈ offsets /\ dy ∈ offsets /\
    bins !! key (cx + dx) (cy + dy) = Some bucket /\ i ∈ bucket /\
    (h_entities st !! i) = Some e /\ (e_id e ∉ h_removed st) /\
    bulletTouches b e = true /\ r = hitEntity b i e st.
Proof.
  intros H. apply first_some_Some in H as (dx & Hdx & H).
  apply first_some_Some in H as (dy & Hdy & H).
  destruct (bins !! key (cx + dx) (cy + dy)) as [bucket|] eqn:Hb; [|done].
  apply scanBucket_Some in H as (i & e & ? & ? & ? & ? & ?).
  by exists dx, dy, bucket, i, e.
Qed.


(** A bullet either passes through the hit pass untouched or strikes
    exactly one entity, which it touches and which is not yet removed. *)
Lemma processBullet_cases cellSize bins (st : HitState) b :
  processBullet cellSize bins st b = (b, st) \/
  exists dx dy bucket i e,
    0 < b_life b /\
    dx ∈ offsets /\ dy ∈ offsets /\
    bins !! key ((cellOf cellSize (b_pos b)).1 + dx)
                ((cellOf cellSize (b_pos b)).2 + dy) = Some bucket /\
    i ∈ bucket /\
    (h_entities st !! i) = Some e /\ (e_id e ∉ h_removed st) /\
    bulletTouches b e = true /\
    processBullet cellSize bins st b = hitEntity b i e st.
Proof.
  unfold BulletSystem.processBullet.
  case_decide as Hlife; [by left|].
  destruct (cellOf cellSize (b_pos b)) as [cx cy] eqn:Hcell. cbn [fst snd].
  destruct (scanCells bins b st cx cy) as [r|] eqn:Hscan; [|by left].
  right. apply scanCells_Some in Hscan as (dx & dy & bucket & i & e & ? & ? & ? & ? & ? & ? & ? & ->).
  exists dx, dy, bucket, i, e. repeat split; try done. lra.
Qed.

(** Invariants of the hit pass: a property of the locals and a relation
    between each bullet before and after its iteration. *)
Lemma bulletLoop_invariant (P : HitState -> Prop) (Q : Bullet -> Prop)
    (Rb : Bullet -> Bullet -> Prop) cellSize bins :
  (forall st b, P st -> Q b ->
     P (processBullet cellSize bins st b).2 /\ Rb b (processBullet cellSize bins st b).1) ->
  forall bullets st, P st -> Forall Q bullets ->
    P (bulletLoop cellSize bins bullets st).2 /\
    Forall2 Rb bullets (bulletLoop cellSize bins bullets st).1.
Proof.
  intros Hstep bullets. induction bullets as [|b rest IH]; intros st HP HQ; cbn.
  - split; [done|constructor].
  - inversion HQ as [|? ? Hb Hrest]; subst.
    destruct (Hstep st b HP Hb) as [HP' HR].
    destruct (processBullet cellSize bins st b) as [b' st'] eqn:Hpb. cbn [fst snd] in *.
    destruct (IH st' HP' Hrest) as [HP'' HF].
    destruct (bulletLoop cellSize bins rest st') as [rest' st'']. cbn [fst snd] in *.
    split; [done|by constructor].
Qed.

Variable spawnSquare : list GameEntity -> W -> bool * list GameEntity * W.
Variable spawnTriangle : list GameEntity -> W -> bool * list GameEntity * W.

#[local] Abbreviation updateBullets :=
  (updateBullets spawnSquare spawnTriangle queueDeathEffect onEntityKilled).

(** The shape of a call: the hit pass runs on the integrated bullets
    when both arrays are non-empty, and the result keeps the bullets
    that pass the last loop. *)
Lemma updateBullets_unfold bullets entities dt camera spawns maxSpawns w :
  let out := updateBullets bullets entities dt camera spawns maxSpawns w in
  let bullets1 := map (integrateBullet dt) bullets in
  r_bullets (o_result out) = filter (fun b => keepBullet camera b = true) (o_bullets out) /\
  (((length entities = 0%nat \/ length bullets = 0%nat) /\
    o_bullets out = bullets1 /\ r_entities (o_result out) = entities) \/
   exists st,
     length entities <> 0%nat /\ length bullets <> 0%nat /\
     bulletLoop (cellSizeFor bullets1) (buildBins (cellSizeFor bullets1) entities)
       bullets1 (mkHitState entities ∅ 0 0 w) = (o_bullets out, st) /\
     ((h_removed st = ∅ /\ r_entities (o_result out) = h_entities st) \/
      (h_removed st <> ∅ /\
       r_entities (o_result out) =
       p_entities
         (respawnLoop spawnTriangle (h_removedTriangles st) maxSpawns
            (respawnLoop spawnSquare (h_removedSquares st) maxSpawns
               (mkRespawnState
                  (filter (fun entity => e_id entity ∉ h_removed st) (h_entities st))
                  0 spawns (h_world st))))))).
Proof.
  cbv zeta. unfold BulletSystem.updateBullets.
  case_decide as Hne.
  - destruct (bulletLoop _ _ _ _) as [bs st] eqn:Hloop.
    case_decide as Hrem; cbn [o_result o_bullets r_bullets r_entities].
    + split; [done|]. right. exists st. rewrite length_map in Hne.
      split; [tauto|]. split; [tauto|]. split; [done|]. right. split; [|done].
      intros Heq. apply Hrem. rewrite Heq. apply size_empty.
    + split; [done|]. right. exists st. rewrite length_map in Hne.
      split; [tauto|]. split; [tauto|]. split; [done|]. left. split; [|done].
      apply size_empty_inv in Hrem. by apply leibniz_equiv in Hrem.
  - cbn [o_result o_bullets r_bullets r_entities]. split; [done|]. left.
    split; [|done]. rewrite length_map in Hne.
    destruct (length entities), (length bullets); auto. exfalso. apply Hne. done.
Qed.

End HitPass.

(** * Bullets that survive the frame *)

Section Survivors.
Context {W : Type}.
Variable spawnSquare : list GameEntity -> W -> bool * list GameEntity * W.
Variable spawnTriangle : list GameEntity -> W -> bool * list GameEntity * W.
Variable queueDeathEffect : GameEntity -> W -> W.
Variable onEntityKilled : option (GameEntity -> W -> W).

Lemma processBullet_budgetStep cellSize bins (st : HitState) b :
  budgetStep b (processBullet queueDeathEffect onEntityKilled cellSize bins st b).1.
Proof.
  destruct (processBullet_cases queueDeathEffect onEntityKilled cellSize bins st b)
    as [->|(dx & dy & bucket & i & e & _ & _ & _ & _ & _ & _ & _ & _ & ->)].
  - by left.
  - right. exists (e_kind e). apply hitEntity_bullet.
Qed.

Lemma updateBullets_budgetSteps bullets entities dt camera spawns maxSpawns w :
  Forall2 budgetStep (map (integrateBullet dt) bullets)
    (o_bullets (updateBullets spawnSquare spawnTriangle queueDeathEffect onEntityKilled
                  bullets entities dt camera spawns maxSpawns w)).
Proof.
  pose proof (updateBullets_unfold queueDeathEffect onEntityKilled spawnSquare
                spawnTriangle bullets entities dt camera spawns maxSpawns w) as H.
  cbv zeta in H. destruct H as [_ [(_ & -> & _)|(st & _ & _ & Hloop & _)]].
  - apply Forall2_same_length_lookup. split; [done|].
    intros i x y Hx Hy. left. congruence.
  - pose proof (bulletLoop_invariant queueDeathEffect onEntityKilled
                  (fun _ => True) (fun _ => True) budgetStep
                  (cellSizeFor (map (integrateBullet dt) bullets))
                  (buildBins (cellSizeFor (map (integrateBullet dt) bullets)) entities)) as Hinv.
    edestruct Hinv as [_ HF].
    + intros st' b _ _. split; [done|]. apply processBullet_budgetStep.
    + exact I.
    + apply Forall_true. done.
    + rewrite Hloop in HF. exact HF.
Qed.

End Survivors.

Lemma keepBullet_true camera b :
  keepBullet camera b = true ->
  0 < b_life b /\
  -40 < vx (b_pos b) - cam_x camera < cam_width camera + 40 /\
  -40 < vy (b_pos b) - cam_y camera < cam_height camera + 40.
Proof.
  unfold keepBullet, inView. case_decide as Hl; [done|].
  rewrite !andb_true_iff, !bool_decide_eq_true. lra.
Qed.

(** C9: when every bullet enters [updateBullets] with a positive
    penetration budget, every returned bullet has a positive lifetime, a
    positive budget and a position inside the camera rectangle widened by
    40; the hit pass changes a bullet only by the assignments of one hit,
    and a bullet left with a budget of 0 or less has lifetime 0 and is not
    returned. *)
Theorem updateBullets_survivors {W : Type}
    (spawnSquare spawnTriangle : list GameEntity -> W -> bool * list GameEntity * W)
    (queueDeathEffect : GameEntity -> W -> W)
    (onEntityKilled : option (GameEntity -> W -> W))
    (bullets : list Bullet) (entities : list GameEntity) (dt : R)
    (camera : CameraInfo) (spawnsThisFrame maxSpawnsPerFrame : Z) (w : W) :
  (forall b, b ∈ bullets -> 0 < b_hp b) ->
  let out := updateBullets spawnSquare spawnTriangle queueDeathEffect onEntityKilled
               bullets entities dt camera spawnsThisFrame maxSpawnsPerFrame w in
  (forall b, b ∈ r_bullets (o_result out) ->
     0 < b_life b /\ 0 < b_hp b /\
     -40 < vx (b_pos b) - cam_x camera < cam_width camera + 40 /\
     -40 < vy (b_pos b) - cam_y camera < cam_height camera + 40) /\
  (forall b, b ∈ o_bullets out -> b_hp b <= 0 ->
     b_life b = 0 /\ b ∉ r_bullets (o_result out)) /\
  Forall2 (fun b0 b' =>
             b_hp b' = b_hp b0 \/
             exists kind, b_hp b' = b_hp b0 - Stats.SHAPE_BASE_DAMAGE kind)
    bullets (o_bullets out).
Proof.
  intros Hhp out.
  pose proof (updateBullets_budgetSteps spawnSquare spawnTriangle queueDeathEffect
                onEntityKilled bullets entities dt camera spawnsThisFrame
                maxSpawnsPerFrame w) as Hsteps.
  fold out in Hsteps.
  assert (Hres : r_bullets (o_result out)
                 = filter (fun b => keepBullet camera b = true) (o_bullets out)).
  { apply (updateBullets_unfold queueDeathEffect onEntityKilled spawnSquare
             spawnTriangle bullets entities dt camera spawnsThisFrame
             maxSpawnsPerFrame w). }
  assert (Horigin : forall b', b' ∈ o_bullets out ->
            exists b0, b0 ∈ bullets /\ budgetStep (integrateBullet dt b0) b').
  { intros b' Hin. apply list_elem_of_lookup in Hin as [i Hi].
    destruct (Forall2_lookup_r _ _ _ _ _ Hsteps Hi) as (b1 & Hb1 & Hstep).
    rewrite list_lookup_fmap in Hb1.
    destruct (bullets !! i) as [b0|] eqn:Hb0; [|done].
    injection Hb1 as <-. exists b0. split; [|done].
    apply list_elem_of_lookup. by exists i. }
  assert (Hzero : forall b', b' ∈ o_bullets out -> b_hp b' <= 0 -> b_life b' = 0).
  { intros b' Hin Hle. destruct (Horigin b' Hin) as (b0 & Hb0 & [->|[kind ->]]).
    - specialize (Hhp b0 Hb0). cbn in Hle. lra.
    - unfold spentBullet in *. cbn [b_hp b_life] in *. by rewrite decide_True. }
  split; [|split].
  - intros b Hin. rewrite Hres in Hin. apply list_elem_of_filter in Hin as [Hkeep Hin].
    apply keepBullet_true in Hkeep as (Hlife & Hx & Hy).
    repeat split; try lra.
    destruct (Rlt_le_dec 0 (b_hp b)) as [|Hle]; [done|].
    specialize (Hzero b Hin Hle). lra.
  - intros b Hin Hle. split; [by apply Hzero|].
    rewrite Hres. intros Hin'. apply list_elem_of_filter in Hin' as [Hkeep _].
    apply keepBullet_true in Hkeep as (Hlife & _). specialize (Hzero b Hin Hle). lra.
  - rewrite Forall2_fmap_l in Hsteps.
    eapply Forall2_impl; [exact Hsteps|].
    intros b0 b' [->|[kind ->]]; [by left|].
    right. by exists kind.
Qed.

Lemma updateBullets_survivors_witness :
  let b := mkBullet 1 (mkVec2 0 0) (mkVec2 300 0) 11 2 2 7 in
  let camera := mkCameraInfo (-400) (-300) 800 600 1 in
  let idle := fun (es : list GameEntity) (w : unit) => (false, es, w) in
  let out := updateBullets idle idle (fun _ w => w) None [b] [freshSquare] (1 / 50) camera 0 2 tt in
  (forall b, b ∈ r_bullets (o_result out) ->
     0 < b_life b /\ 0 < b_hp b /\
     -40 < vx (b_pos b) - cam_x camera < cam_width camera + 40 /\
     -40 < vy (b_pos b) - cam_y camera < cam_height camera + 40) /\
  (forall b, b ∈ o_bullets out -> b_hp b <= 0 ->
     b_life b = 0 /\ b ∉ r_bullets (o_result out)) /\
  Forall2 (fun b0 b' =>
             b_hp b' = b_hp b0 \/
             exists kind, b_hp b' = b_hp b0 - Stats.SHAPE_BASE_DAMAGE kind)
    [b] (o_bullets out).
Proof.
  cbv zeta.
  apply (updateBullets_survivors (W := unit)).
  intros b Hb. apply list_elem_of_singleton in Hb as ->. cbn. lra.
Defined.

(** * Health *)

Lemma computeBulletHitDamage_nonneg d h t :
  0 <= d -> 0 <= h -> 0 <= Stats.computeBulletHitDamage d h t.
Proof.
  intros Hd Hh. unfold Stats.computeBulletHitDamage. case_decide; [|done].
  assert (0 < Rmax (1 / 1000000) t)
    by (eapply Rlt_le_trans; [|apply Rmax_l]; lra).
  apply Rmult_le_pos; [done|]. unfold Rdiv.
  apply Rmult_le_pos; [done|]. by apply Rlt_le, Rinv_0_lt_compat.
Qed.

Lemma clamp_at_zero hp maxHp amount :
  0 <= hp <= maxHp -> 0 <= amount -> 0 <= Rmax 0 (hp - amount) <= maxHp.
Proof.
  intros Hr Ha. split; [apply Rmax_l|]. apply Rmax_lub; lra.
Qed.

Lemma struckEntity_healthInRange b e :
  damaging b -> healthInRange e -> healthInRange (struckEntity b e).
Proof.
  intros [Hd Hh] He. unfold healthInRange.
  rewrite struckEntity_hp, struckEntity_maxHp.
  apply clamp_at_zero; [done|]. by apply computeBulletHitDamage_nonneg.
Qed.

Lemma derived_maxHp_lower level points :
  nonNegative points ->
  50 <= Stats.maxHp (Stats.computeDerivedStats level points).
Proof.
  intros Hp. unfold Stats.computeDerivedStats; cbn [Stats.maxHp].
  unfold Stats.baseMaxHpForLevel, Stats.BASE_HP, Stats.HP_PER_LEVEL, Stats.HP_PER_POINT.
  assert (0 <= Rmax 0 (level - 1)) by apply Rmax_l.
  assert (0 <= IZR (Stats.sp_maxHealth points)).
  { apply IZR_le. unfold nonNegative, Stats.values in Hp.
    by inversion Hp. }
  nra.
Qed.

Lemma derived_regen_nonneg level points :
  nonNegative points ->
  0 <= Stats.regenPerSecond (Stats.computeDerivedStats level points).
Proof.
  intros Hp. pose proof (derived_maxHp_lower level points Hp) as Hm.
  unfold Stats.computeDerivedStats in *; cbn [Stats.maxHp Stats.regenPerSecond] in *.
  unfold Stats.REGEN_BASE_FACTOR, Stats.REGEN_PER_POINT.
  assert (0 <= IZR (Stats.sp_healthRegen points)).
  { apply IZR_le. unfold nonNegative, Stats.values in Hp.
    inversion Hp as [|? ? _ Hp1]. by inversion Hp1. }
  apply Rmult_le_pos; [lra|nra].
Qed.

Lemma derived_bodyDamageShape_nonneg level points :
  nonNegative points ->
  0 <= Stats.bodyDamageShape (Stats.computeDerivedStats level points).
Proof.
  intros Hp. unfold Stats.computeDerivedStats; cbn [Stats.bodyDamageShape].
  unfold Stats.BODY_DAMAGE_BASE, Stats.BODY_DAMAGE_MULT_SHAPE.
  assert (0 <= IZR (Stats.sp_bodyDamage points)).
  { apply IZR_le. unfold nonNegative, Stats.values in Hp.
    inversion Hp as [|? ? _ Hp1]. inversion Hp1 as [|? ? _ Hp2]. by inversion Hp2. }
  lra.
Qed.

(** A bullet fired with the derived damage and penetration budget. *)
Lemma derived_bullet_damaging level points b :
  nonNegative points ->
  b_damage b = Stats.d_bulletDamage (Stats.computeDerivedStats level points) ->
  b_hp b = Stats.bulletHpMax (Stats.computeDerivedStats level points) ->
  damaging b /\ 0 < b_hp b.
Proof.
  intros Hp Hd Hh. unfold damaging. rewrite Hd, Hh. unfold Stats.computeDerivedStats.
  cbn [Stats.d_bulletDamage Stats.bulletHpMax].
  unfold Stats.BASE_BULLET_DAMAGE, Stats.BULLET_DAMAGE_PER_POINT, Stats.BASE_BULLET_HP,
    Stats.BULLET_PENETRATION_PER_POINT, Stats.HIGH_SPEED_DAMAGE_PENALTY,
    Stats.BULLET_SPEED_PER_POINT.
  unfold nonNegative, Stats.values in Hp.
  repeat match goal with H : Forall _ (_ :: _) |- _ => inversion H; clear H; subst end.
  assert (0 <= IZR (Stats.sp_bulletDamage points)) by by apply IZR_le.
  assert (0 <= IZR (Stats.sp_bulletPenetration points)) by by apply IZR_le.
  pose proof (Rmax_l 0 (1 + 0.1 * IZR (Stats.sp_bulletSpeed points) - 1)) as Hm.
  set (m := Rmax 0 _) in *. clearbody m.
  assert (0 < 1 / (1 + m * 0.08)).
  { apply Rdiv_lt_0_compat; nra. }
  repeat split; nra.
Qed.

Lemma impactMultiplierFromSpeed_pos speed : 1 <= Stats.impactMultiplierFromSpeed speed.
Proof.
  unfold Stats.impactMultiplierFromSpeed, Stats.IMPACT_SPEED_BONUS.
  assert (0 <= Rmax 0 (Rmin 1 (speed / Stats.BASE_TANK_SPEED))) by apply Rmax_l.
  lra.
Qed.

Section HealthOfHitPass.
Context {W : Type}.
Variable spawnSquare : list GameEntity -> W -> bool * list GameEntity * W.
Variable spawnTriangle : list GameEntity -> W -> bool * list GameEntity * W.
Variable queueDeathEffect : GameEntity -> W -> W.
Variable onEntityKilled : option (GameEntity -> W -> W).

Lemma processBullet_healthInRange cellSize bins (st : HitState) b :
  Forall healthInRange (h_entities st) -> damaging b ->
  Forall healthInRange
    (h_entities (processBullet queueDeathEffect onEntityKilled cellSize bins st b).2).
Proof.
  intros Hes Hb.
  destruct (processBullet_cases queueDeathEffect onEntityKilled cellSize bins st b)
    as [->|(dx & dy & bucket & i & e & _ & _ & _ & _ & _ & He & _ & _ & ->)]; [done|].
  rewrite hitEntity_entities. apply Forall_insert; [done|].
  apply struckEntity_healthInRange; [done|].
  eapply Forall_lookup_1; eauto.
Qed.

Lemma respawnLoop_healthInRange spawn removed maxSpawns (p : @RespawnState W) :
  spawnsHealthy spawn -> Forall healthInRange (p_entities p) ->
  Forall healthInRange (p_entities (respawnLoop spawn removed maxSpawns p)).
Proof.
  intros Hspawn. revert p. induction removed as [|n IH]; intros p Hp; cbn; [done|].
  case_decide; [|done].
  specialize (Hspawn (p_entities p) (p_world p) Hp).
  destruct (spawn (p_entities p) (p_world p)) as [[ok es'] w']. cbn [fst snd] in Hspawn.
  destruct ok; [by apply IH|done].
Qed.

Lemma updateBullets_healthInRange bullets entities dt camera spawns maxSpawns w :
  Forall healthInRange entities -> Forall damaging bullets ->
  spawnsHealthy spawnSquare -> spawnsHealthy spawnTriangle ->
  Forall healthInRange
    (r_entities (o_result (updateBullets spawnSquare spawnTriangle queueDeathEffect
                             onEntityKilled bullets entities dt camera spawns
                             maxSpawns w))).
Proof.
  intros Hes Hbs HsS HsT.
  pose proof (updateBullets_unfold queueDeathEffect onEntityKilled spawnSquare
                spawnTriangle bullets entities dt camera spawns maxSpawns w) as H.
  cbv zeta in H. destruct H as [_ [(_ & _ & ->)|(st & _ & _ & Hloop & Hcase)]]; [done|].
  assert (Hst : Forall healthInRange (h_entities st)).
  { pose proof (bulletLoop_invariant queueDeathEffect onEntityKilled
                  (fun st => Forall healthInRange (h_entities st)) damaging
                  (fun _ _ => True)
                  (cellSizeFor (map (integrateBullet dt) bullets))
                  (buildBins (cellSizeFor (map (integrateBullet dt) bullets)) entities))
      as Hinv.
    destruct (Hinv
                (fun st' b HP Hb =>
                   conj (processBullet_healthInRange _ _ st' b HP Hb) I)
                (map (integrateBullet dt) bullets) (mkHitState entities ∅ 0 0 w)) as [HP _].
    - exact Hes.
    - apply Forall_fmap. eapply Forall_impl; [exact Hbs|]. intros b Hb. exact Hb.
    - by rewrite Hloop in HP. }
  destruct Hcase as [[_ ->]|[_ ->]]; [done|].
  apply respawnLoop_healthInRange; [done|].
  apply respawnLoop_healthInRange; [done|]. cbn [p_entities].
  apply Forall_forall. intros e He. apply list_elem_of_filter in He as [_ He].
  eapply Forall_forall in Hst; eauto.
Qed.

End HealthOfHitPass.

Lemma onPlayerCollide_healthInRange derived tankVel e dt c maxHp :
  0 <= dt -> 0 <= Stats.bodyDamageShape derived ->
  0 <= App.tankHp c <= maxHp -> healthInRange e ->
  0 <= App.tankHp (App.onPlayerCollide derived tankVel e dt c).1 <= maxHp /\
  healthInRange (App.onPlayerCollide derived tankVel e dt c).2.
Proof.
  intros Hdt Hbody Hc He. unfold App.onPlayerCollide.
  set (bodyDamage := Stats.bodyDamageShape derived * _ * dt).
  assert (0 <= bodyDamage).
  { unfold bodyDamage.
    pose proof (impactMultiplierFromSpeed_pos (Js.hypot (vx tankVel) (vy tankVel))).
    apply Rmult_le_pos; [|done]. apply Rmult_le_pos; lra. }
  assert (Htank : 0 <= Rmax 0 (App.tankHp c - PLAYER_CONTACT_DPS * dt) <= maxHp).
  { apply clamp_at_zero; [done|]. unfold PLAYER_CONTACT_DPS. lra. }
  assert (Hent : healthInRange
            (set_hitT (set_hp e (Rmax 0 (e_hp e - bodyDamage))) HIT_FLASH_DURATION)).
  { unfold healthInRange; cbn. by apply clamp_at_zero. }
  cbv zeta. case_decide; cbn [fst snd App.tankHp]; done.
Qed.

Lemma settleHealth_in_range derived dt tookDamage timeSinceDamage hp :
  0 <= dt -> 0 <= Stats.regenPerSecond derived ->
  0 <= hp <= Stats.maxHp derived ->
  0 <= (App.settleHealth derived dt tookDamage timeSinceDamage hp).1 <= Stats.maxHp derived.
Proof.
  intros Hdt Hregen Hhp. unfold App.settleHealth.
  destruct tookDamage; cbn [fst].
  - rewrite Rmin_right by lra. done.
  - case_decide; cbn [fst].
    + set (regen := Stats.regenPerSecond derived * _).
      assert (0 <= regen).
      { unfold regen. apply Rmult_le_pos; [done|].
        destruct (bool_decide _); unfold Stats.REGEN_HYPER_MULTIPLIER; lra. }
      assert (0 <= regen * dt) by (by apply Rmult_le_pos).
      split.
      * apply Rmin_glb; [lra|]. apply Rmin_glb; lra.
      * apply Rmin_l.
    + rewrite Rmin_right by lra. done.
Qed.

Lemma applyTank_in_range hp amount maxHp :
  0 <= maxHp ->
  0 <= Tank.applyTankDamage hp amount maxHp <= maxHp /\
  0 <= Tank.applyTankHeal hp amount maxHp <= maxHp.
Proof.
  intros Hm. unfold Tank.applyTankDamage, Tank.applyTankHeal.
  repeat split; try apply Rmax_l; apply Rmax_lub; try lra; apply Rmin_l.
Qed.

Lemma spawn_healthInRange rnd st playerPos mapW mapH safeRadius kind :
  Forall healthInRange (s_entities st) ->
  Forall healthInRange
    (s_entities (spawnEntityRandomAvoidingPlayers rnd st playerPos mapW mapH
                   safeRadius kind).2).
Proof.
  intros Hes. unfold spawnEntityRandomAvoidingPlayers.
  pose proof (spawnAttempts_spec rnd playerPos mapW mapH safeRadius kind 20 st) as H.
  cbv zeta in H. destruct H as (_ & Hfalse & Htrue & _).
  destruct (spawnAttempts rnd 20 st playerPos mapW mapH safeRadius kind) as [[|] st'];
    cbn [fst snd] in *.
  - destruct (Htrue eq_refl) as (e & -> & Hk & _ & Hhp & _).
    apply Forall_app. split; [done|]. by apply Forall_singleton.
  - destruct (Hfalse eq_refl) as [-> _]. done.
Qed.

(** C1: no operation of the simulation drives a health value below 0 or
    above its maximum.  For a frame of [dt >= 0], stat points that are not
    negative, bullets whose damage and penetration budget are not negative
    and spawn callbacks that add healthy entities: every entity returned
    by [updateBullets] has [0 <= hp <= maxHp]; body contact through
    [onPlayerCollide] leaves both the tank and the entity in range; the
    regeneration step [settleHealth] and the tank's [applyTankDamage] and
    [applyTankHeal] leave the tank's health between 0 and the current
    maximum; and [spawnEntityRandomAvoidingPlayers] only adds an entity at
    full health. *)
Theorem health_stays_in_range {W : Type}
    (spawnSquare spawnTriangle : list GameEntity -> W -> bool * list GameEntity * W)
    (queueDeathEffect : GameEntity -> W -> W)
    (onEntityKilled : option (GameEntity -> W -> W))
    (level : R) (points : Stats.StatPoints) (dt hp : R)
    (entities : list GameEntity) (bullets : list Bullet) :
  let derived := Stats.computeDerivedStats level points in
  0 <= dt ->
  nonNegative points ->
  0 <= hp <= Stats.maxHp derived ->
  Forall healthInRange entities ->
  Forall damaging bullets ->
  spawnsHealthy spawnSquare ->
  spawnsHealthy spawnTriangle ->
  (forall camera spawnsThisFrame maxSpawnsPerFrame w,
     Forall healthInRange
       (r_entities (o_result (updateBullets spawnSquare spawnTriangle queueDeathEffect
                                onEntityKilled bullets entities dt camera
                                spawnsThisFrame maxSpawnsPerFrame w)))) /\
  (forall e tankVel c, e ∈ entities -> App.tankHp c = hp ->
     0 <= App.tankHp (App.onPlayerCollide derived tankVel e dt c).1 <= Stats.maxHp derived /\
     healthInRange (App.onPlayerCollide derived tankVel e dt c).2) /\
  (forall tookDamage timeSinceDamage,
     0 <= (App.settleHealth derived dt tookDamage timeSinceDamage hp).1
       <= Stats.maxHp derived) /\
  (forall amount,
     0 <= Tank.applyTankDamage hp amount (Stats.maxHp derived) <= Stats.maxHp derived /\
     0 <= Tank.applyTankHeal hp amount (Stats.maxHp derived) <= Stats.maxHp derived) /\
  (forall rnd nextId cursor playerPos mapW mapH safeRadius kind,
     Forall healthInRange
       (s_entities (spawnEntityRandomAvoidingPlayers rnd
                      (mkSpawnState entities nextId cursor) playerPos mapW mapH
                      safeRadius kind).2)).
Proof.
  intros derived Hdt Hpoints Hhp Hes Hbs HsS HsT.
  pose proof (derived_maxHp_lower level points Hpoints) as Hmax. fold derived in Hmax.
  split; [|split; [|split; [|split]]].
  - intros camera spawns maxSpawns w. by apply updateBullets_healthInRange.
  - intros e tankVel c He Hc. apply onPlayerCollide_healthInRange.
    + done.
    + by apply derived_bodyDamageShape_nonneg.
    + by rewrite Hc.
    + eapply Forall_forall in Hes; eauto.
  - intros took tsd. apply settleHealth_in_range; [done| |done].
    by apply derived_regen_nonneg.
  - intros amount. apply applyTank_in_range. lra.
  - intros. by apply spawn_healthInRange.
Qed.

Lemma health_stays_in_range_witness :
  let idle := fun (es : list GameEntity) (w : unit) => (false, es, w) in
  let derived := Stats.computeDerivedStats 1 App.INITIAL_STATS in
  let e := mkGameEntity 1 (mkVec2 0 0) (mkVec2 5 0) (mkVec2 0 0) 0 0 38 square
             SQUARE_FILL SQUARE_STROKE 10 10 None in
  let b := mkBullet 1 (mkVec2 0 0) (mkVec2 300 0) 11 2 2 7 in
  (forall camera spawnsThisFrame maxSpawnsPerFrame w,
     Forall healthInRange
       (r_entities (o_result (updateBullets idle idle (fun _ w => w) None [b] [e]
                                (1 / 50) camera spawnsThisFrame maxSpawnsPerFrame w)))) /\
  (forall e' tankVel c, e' ∈ [e] -> App.tankHp c = 50 ->
     0 <= App.tankHp (App.onPlayerCollide derived tankVel e' (1 / 50) c).1
       <= Stats.maxHp derived /\
     healthInRange (App.onPlayerCollide derived tankVel e' (1 / 50) c).2) /\
  (forall tookDamage timeSinceDamage,
     0 <= (App.settleHealth derived (1 / 50) tookDamage timeSinceDamage 50).1
       <= Stats.maxHp derived) /\
  (forall amount,
     0 <= Tank.applyTankDamage 50 amount (Stats.maxHp derived) <= Stats.maxHp derived /\
     0 <= Tank.applyTankHeal 50 amount (Stats.maxHp derived) <= Stats.maxHp derived) /\
  (forall rnd nextId cursor playerPos mapW mapH safeRadius kind,
     Forall healthInRange
       (s_entities (spawnEntityRandomAvoidingPlayers rnd
                      (mkSpawnState [e] nextId cursor) playerPos mapW mapH
                      safeRadius kind).2)).
Proof.
  cbv zeta.
  apply (health_stays_in_range (W := unit)).
  - lra.
  - unfold nonNegative, Stats.values, App.INITIAL_STATS; cbn.
    repeat (apply List.Forall_cons; [lia|]). apply List.Forall_nil.
  - cbn. unfold Stats.baseMaxHpForLevel, Stats.BASE_HP, Stats.HP_PER_LEVEL,
      Stats.HP_PER_POINT. rewrite Rmax_left by lra. lra.
  - apply Forall_singleton. unfold healthInRange. cbn. lra.
  - apply Forall_singleton. unfold damaging. cbn. lra.
  - intros es w H. exact H.
  - intros es w H. exact H.
Defined.

(** * The spatial hash *)








(** * A single hit *)

Section Strike.
Context {W : Type}.
Variable spawnSquare : list GameEntity -> W -> bool * list GameEntity * W.
Variable spawnTriangle : list GameEntity -> W -> bool * list GameEntity * W.
Variable queueDeathEffect : GameEntity -> W -> W.
Variable onEntityKilled : option (GameEntity -> W -> W).



End Strike.





(** * Geometry of the narrow phase *)









Section TriangleVerts.
Variables (pos : Vec2) (angle size : R) (a b c : Vec2).
Hypothesis Hverts : triangleWorldVerts pos angle size = (a, b, c).







End TriangleVerts.


(** * Broad phase against narrow phase *)












(** * Separating axes *)

(** ** Projections *)









(** ** What [satMTV] returns *)

Section SatMTV.
Variables (vertsA vertsB : list Vec2) (centerAX centerAY centerBX centerBY : R).



End SatMTV.

(** ** Unit normals *)




(** ** The collision polygon of an entity *)






(** * Resolving two entities *)






(** * Two boxes on the same spot *)

(** ** Evaluating [satMTV] on explicit polygons *)



Section Stepping.
Variables (vertsA vertsB : list Vec2) (centerAX centerAY centerBX centerBY : R).




End Stepping.











